(** * Plant-doctor front end: markdown renderer, Gemini request formatter,
      session key store and step workflow

    A shallow embedding of
      - [src/components/MarkdownRenderer.tsx] (the [MarkdownRenderer]
        component and, after the document separator, the [App] component
        with [useApiKey] and the step views), and
      - [src/services/geminiService.ts], and
      - [src/service-worker.js].

    JavaScript strings are sequences of UTF-16 code units and are modelled
    as [list N].  React state is a record, the component's event handlers
    are functions on it, and the asynchronous handlers are split at their
    [await] into the part that runs in the click handler and the part that
    runs when the promise settles.  The updates one such part makes are
    applied together, as React batches them before it renders again. *)

From Stdlib Require Import ZArith NArith Ascii Lia.
From Stdlib Require QArith.
From stdpp Require Import gmap list strings pretty.

Set Warnings "-register-all".

(* ===================================================================== *)
(** * JavaScript strings *)
(* ===================================================================== *)

Module JS.

(** Source-file literals are written in UTF-8; [js] turns one into the
    UTF-16 code units the JavaScript engine holds. *)
Fixpoint utf8_bytes (s : string) : list N :=
  match s with
  | EmptyString => []
  | String a r => N_of_ascii a :: utf8_bytes r
  end.

Definition cont (b : N) : N := N.land b 63.

Definition utf16_units (cp : N) : list N :=
  if (cp <? 65536)%N then [cp]
  else let v := (cp - 65536)%N in
       [(55296 + N.shiftr v 10)%N; (56320 + N.land v 1023)%N].

Fixpoint utf16_of_utf8 (bs : list N) : list N :=
  match bs with
  | [] => []
  | b0 :: r0 =>
      if (b0 <? 128)%N then b0 :: utf16_of_utf8 r0
      else if (b0 <? 224)%N then
        match r0 with
        | b1 :: r1 =>
            (N.shiftl (N.land b0 31) 6 + cont b1)%N :: utf16_of_utf8 r1
        | [] => []
        end
      else if (b0 <? 240)%N then
        match r0 with
        | b1 :: b2 :: r2 =>
            (N.shiftl (N.land b0 15) 12 + N.shiftl (cont b1) 6 + cont b2)%N
              :: utf16_of_utf8 r2
        | _ => []
        end
      else
        match r0 with
        | b1 :: b2 :: b3 :: r3 =>
            utf16_units (N.shiftl (N.land b0 7) 18 + N.shiftl (cont b1) 12
                         + N.shiftl (cont b2) 6 + cont b3)%N
              ++ utf16_of_utf8 r3
        | _ => []
        end
  end.

Definition js (s : string) : list N := utf16_of_utf8 (utf8_bytes s).
Arguments js s%_string.

(** Code units that cannot be written inside a literal. *)
Definition LF : N := 10.
Definition QUOTE : N := 34.
Definition STAR : N := 42.

(** ECMAScript [WhiteSpace] and [LineTerminator] code points: what
    [String.prototype.trim] strips. *)
Definition isLineTerminator (c : N) : bool :=
  (c =? 10)%N || (c =? 13)%N || (c =? 8232)%N || (c =? 8233)%N.

Definition isWhiteSpace (c : N) : bool :=
  (c =? 9)%N || (c =? 11)%N || (c =? 12)%N || (c =? 32)%N || (c =? 160)%N
  || (c =? 5760)%N || ((8192 <=? c)%N && (c <=? 8202)%N)
  || (c =? 8239)%N || (c =? 8287)%N || (c =? 12288)%N || (c =? 65279)%N.

Definition isTrimmed (c : N) : bool := isWhiteSpace c || isLineTerminator c.

Fixpoint trimStart (s : list N) : list N :=
  match s with
  | c :: r => if isTrimmed c then trimStart r else s
  | [] => []
  end.

Definition trimEnd (s : list N) : list N := rev (trimStart (rev s)).

Definition trim (s : list N) : list N := trimEnd (trimStart s).

(** A string is truthy exactly when it is not empty; [null] is falsy. *)
Definition truthy (s : list N) : bool :=
  match s with [] => false | _ :: _ => true end.

Definition truthy_opt (o : option (list N)) : bool :=
  match o with Some s => truthy s | None => false end.

Fixpoint startsWith (s prefix : list N) : bool :=
  match prefix, s with
  | [], _ => true
  | p :: ps, c :: cs => (c =? p)%N && startsWith cs ps
  | _ :: _, [] => false
  end.

(** [s.substring(n)] for [0 <= n]: the code units from position [n] on
    (the empty string when [n] is past the end). *)
Definition substring (n : nat) (s : list N) : list N := drop n s.

(** [s.split('\n')]. *)
Fixpoint split_from (sep : N) (cur : list N) (s : list N) : list (list N) :=
  match s with
  | [] => [rev cur]
  | c :: r =>
      if (c =? sep)%N then rev cur :: split_from sep [] r
      else split_from sep (c :: cur) r
  end.

Definition split (sep : N) (s : list N) : list (list N) :=
  split_from sep [] s.

End JS.

(* ===================================================================== *)
(** * [MarkdownRenderer] *)
(* ===================================================================== *)

Module Markdown.
Import JS.

(** The React elements the component builds.  [key] and [className] are
    presentation attributes and are left out; the heading, item and
    paragraph elements carry the HTML text they are given through
    [dangerouslySetInnerHTML], a [ul] carries its children ([null]
    children included, as React keeps them). *)
Inductive Element : Type :=
| h1 (html : list N)
| h2 (html : list N)
| h3 (html : list N)
| li (html : list N)
| p (html : list N)
| ul (children : list (option Element)).

(** The regular expression [\*\*(.*?)\*\*] anchored at the start of [s],
    once the opening stars are consumed: the shortest run of characters
    other than line terminators that is followed by two stars. *)
Fixpoint lazy_capture (s : list N) : option (list N) :=
  match s with
  | [] => None
  | c :: r =>
      if startsWith s [STAR; STAR] then Some []
      else if isLineTerminator c then None
      else cons c <$> lazy_capture r
  end.

Definition match_bold (s : list N) : option (list N) :=
  if startsWith s [STAR; STAR] then lazy_capture (drop 2 s) else None.

(** [line.replace(/\*\*(.*?)\*\*/g, '<strong>$1</strong>')]: at every
    position, left to right, a match is replaced and the scan resumes
    after it; [skip] counts the code units of a match still to pass. *)
Fixpoint replace_bold (skip : nat) (s : list N) : list N :=
  match s with
  | [] => []
  | c :: r =>
      match skip with
      | S k => replace_bold k r
      | O =>
          match match_bold s with
          | Some cap =>
              js "<strong>" ++ cap ++ js "</strong>"
                ++ replace_bold (length cap + 3) r
          | None => c :: replace_bold 0 r
          end
      end
  end.

Definition renderLine (line : list N) : option Element :=
  let boldedLine := replace_bold 0 line in
  if startsWith line (js "### ") then Some (h3 (substring 4 boldedLine))
  else if startsWith line (js "## ") then Some (h2 (substring 3 boldedLine))
  else if startsWith line (js "# ") then Some (h1 (substring 2 boldedLine))
  else if startsWith line (js "* ") then Some (li (substring 2 boldedLine))
  else if negb (truthy (trim line)) then None
  else Some (p boldedLine).

(** [React.Children.toArray]: the children as an array, [null] dropped. *)
Definition Children_toArray (children : list (option Element))
  : list (option Element) :=
  filter is_Some children.

(** One iteration of the [for] loop, on the loop's variables
    [elements] and [inList]. *)
Definition loop_body (st : list (option Element) * bool) (line : list N)
  : list (option Element) * bool :=
  let '(elements, inList) := st in
  let isListItem := startsWith line (js "* ") in
  if isListItem && negb inList then
    (elements ++ [Some (ul [renderLine line])], true)
  else if isListItem && inList then
    match last elements with
    | Some (Some (ul children)) =>
        let newChildren := Children_toArray children ++ [renderLine line] in
        (<[length elements - 1 := Some (ul newChildren)]> elements, inList)
    | _ => (elements, inList)
    end
  else (elements ++ [renderLine line], false).

Definition render_lines (lines : list (list N)) : list (option Element) :=
  fst (fold_left loop_body lines ([], false)).

Definition MarkdownRenderer (content : list N) : list (option Element) :=
  render_lines (split LF content).

(** What React puts in the document for the fragment: [null] entries
    render nothing. *)
Definition rendered (elements : list (option Element)) : list Element :=
  omap id elements.

End Markdown.

(* ===================================================================== *)
(** * [services/geminiService.ts] *)
(* ===================================================================== *)

Module Gemini.
Import JS.

(** A settled promise: fulfilled with a value, or rejected (the reason
    is only logged by the callers). *)
Inductive Promise (A : Type) : Type :=
| Fulfilled (a : A)
| Rejected.
Arguments Fulfilled {A} a.
Arguments Rejected {A}.

(** [await e] followed by the rest of the [async] function. *)
Definition await {A B : Type} (e : Promise A) (k : A -> Promise B)
  : Promise B :=
  match e with
  | Fulfilled a => k a
  | Rejected => Rejected
  end.

Notation "x <- 'await' e ;; k" := (await e (fun x => k))
  (at level 100, e at next level, right associativity).

(** [Promise.all] over promises that have settled. *)
Fixpoint Promise_all {A : Type} (ps : list (Promise A)) : Promise (list A) :=
  match ps with
  | [] => Fulfilled []
  | q :: qs =>
      a <- await q ;; r <- await Promise_all qs ;; Fulfilled (a :: r)
  end.

(** The [Part] values of @google/genai this program builds. *)
Inductive Part : Type :=
| InlineData (mimeType data : list N)
| Text (text : list N).

Inductive Contents : Type :=
| Parts (parts : list Part)
| Prompt (text : list N).

Record Config : Type := {
  temperature : QArith_base.Q;
  topP : QArith_base.Q;
  topK : Z
}.

Record GenerateContentParameters : Type := {
  model : list N;
  contents : Contents;
  config : Config
}.

(** The hosted model behind [getAI(apiKey).models.generateContent]: from
    the key and the request to the settled promise of [response.text],
    a string as the return types of the service declare.  The key is
    typed [string] in the service; its callers pass their state value
    through a non-null assertion, so [null] can flow in. *)
Definition GoogleGenAI : Type :=
  option (list N) -> GenerateContentParameters -> Promise (list N).

Definition tenths (n : Z) : QArith_base.Q := QArith_base.Qmake n 10.

Definition identifyPlant (ai : GoogleGenAI) (apiKey : option (list N))
    (imageParts : list Part) : Promise (list N) :=
  let prompt :=
    js "Dựa vào (các) hình ảnh được cung cấp, hãy nhận dạng loại cây này. Chỉ trả về tên phổ biến nhất của cây bằng tiếng Việt. Nếu không chắc chắn, hãy trả lời là " ++ [QUOTE] ++ js "Không xác định" ++ [QUOTE] ++ js "." in
  let contents := Parts (imageParts ++ [Text prompt]) in
  text <- await ai apiKey
    {| model := js "gemini-2.5-flash";
       contents := contents;
       config := {| temperature := tenths 2; topP := tenths 9; topK := 32 |} |} ;;
  Fulfilled (trim text).

Definition analyzePlantHealth (ai : GoogleGenAI) (apiKey : option (list N))
    (imageParts : list Part) (plantName : list N) : Promise (list N) :=
  let prompt :=
    [LF]
    ++ js "Bạn là một chuyên gia về thực vật học và bệnh lý cây trồng. Phân tích (các) hình ảnh của một cây " ++ [QUOTE] ++ plantName ++ [QUOTE] ++ js "." ++ [LF]
    ++ [LF]
    ++ js "Dựa trên hình ảnh, hãy cung cấp một phân tích toàn diện bằng tiếng Việt, sử dụng định dạng Markdown. Bao gồm các mục sau:" ++ [LF]
    ++ [LF]
    ++ js "### 1. Tình trạng sức khỏe (Health Status)" ++ [LF]
    ++ js "*   Đánh giá sức khỏe tổng thể. Tìm kiếm bất kỳ dấu hiệu bệnh, sâu hại, héo úa, đổi màu hoặc thiếu hụt dinh dưỡng trên lá, thân và rễ có thể nhìn thấy. Hãy mô tả thật cụ thể." ++ [LF]
    ++ [LF]
    ++ js "### 2. Giải pháp cải thiện (Improvement Solutions)" ++ [LF]
    ++ js "*   Dựa trên đánh giá sức khỏe, cung cấp các bước hành động cụ thể để giải quyết bất kỳ vấn đề nào được xác định. Nếu cây khỏe mạnh, hãy đề xuất các cách để duy trì tình trạng đó." ++ [LF]
    ++ [LF]
    ++ js "### 3. Hướng dẫn chăm sóc chung (General Care Guide)" ++ [LF]
    ++ js "*   Cung cấp hướng dẫn chăm sóc cơ bản cho cây " ++ [QUOTE] ++ plantName ++ [QUOTE] ++ js ", bao gồm các yếu tố chính như: Ánh sáng, Nước, Đất, Phân bón, và Độ ẩm." ++ [LF] in
  let contents := Parts (imageParts ++ [Text prompt]) in
  text <- await ai apiKey
    {| model := js "gemini-2.5-flash";
       contents := contents;
       config := {| temperature := tenths 4; topP := tenths 9; topK := 32 |} |} ;;
  Fulfilled text.

Definition getGoalOrientedAdvice (ai : GoogleGenAI)
    (apiKey : option (list N)) (plantName healthAnalysis userGoal : list N)
  : Promise (list N) :=
  let prompt :=
    [LF]
    ++ js "Bạn là một chuyên gia cây trồng. Dựa vào bối cảnh sau:" ++ [LF]
    ++ js "- **Loại cây:** " ++ plantName ++ [LF]
    ++ js "- **Phân tích sức khỏe trước đó:** " ++ healthAnalysis ++ [LF]
    ++ js "- **Mục tiêu của người dùng:** " ++ [QUOTE] ++ userGoal ++ [QUOTE] ++ [LF]
    ++ [LF]
    ++ js "Hãy cung cấp lời khuyên chuyên sâu, cụ thể và có thể hành động để giúp người dùng đạt được mục tiêu của họ. Tập trung vào các kỹ thuật hoặc điều chỉnh nâng cao ngoài phần chăm sóc cơ bản đã được đề cập. Trình bày câu trả lời của bạn bằng tiếng Việt, sử dụng định dạng Markdown. Đừng lặp lại các thông tin đã có trong phần phân tích sức khỏe trước đó." ++ [LF] in
  text <- await ai apiKey
    {| model := js "gemini-2.5-flash";
       contents := Prompt prompt;
       config := {| temperature := tenths 5; topP := tenths 9; topK := 40 |} |} ;;
  Fulfilled text.

End Gemini.

(* ===================================================================== *)
(** * [App]: session key store and step workflow *)
(* ===================================================================== *)

Module App.
Import JS Gemini.

Inductive Step : Type := API_KEY | UPLOAD | CONFIRM | DIAGNOSE | GOAL.

#[global] Instance Step_eq_dec : EqDecision Step.
Proof. solve_decision. Defined.

(** Position in the workflow order API_KEY < UPLOAD < CONFIRM < DIAGNOSE
    < GOAL. *)
Definition step_rank (s : Step) : nat :=
  match s with
  | API_KEY => 0
  | UPLOAD => 1
  | CONFIRM => 2
  | DIAGNOSE => 3
  | GOAL => 4
  end.

Definition SESSION_TIMEOUT_MS : Z := 30 * 60 * 1000.

Definition STORAGE_KEY : list N := js "gemini-api-key".

(** What the browser keeps under a name of [window.sessionStorage],
    told apart by what [if (item)], [JSON.parse] and the destructuring
    of [useApiKey] make of it: the text [saveApiKey] writes for a
    record [{key, timestamp}]; the empty text, which is falsy; any
    other text, on which parsing or destructuring throws or the
    timestamp test is false. *)
Inductive StoredText : Type :=
| CredentialJSON (key : list N) (timestamp : Z)
| EmptyText
| OtherText.

(** A [File] picked in a file input: its MIME [type] and its bytes. *)
Record File : Type := { file_type : list N; file_bytes : list N }.

(** The [useState] cells of [useApiKey] and [App]. *)
Record State : Type := {
  apiKey : option (list N);
  currentStep : Step;
  imageFiles : list (option File);
  imageDataUrls : list (option (list N));
  plantName : list N;
  healthAnalysis : list N;
  goalAnalysis : list N;
  userGoal : list N;
  loadingMessage : option (list N);
  error : option (list N)
}.

Definition setApiKey (v : option (list N)) (s : State) : State :=
  {| apiKey := v; currentStep := currentStep s; imageFiles := imageFiles s;
     imageDataUrls := imageDataUrls s; plantName := plantName s;
     healthAnalysis := healthAnalysis s; goalAnalysis := goalAnalysis s;
     userGoal := userGoal s; loadingMessage := loadingMessage s;
     error := error s |}.

Definition setCurrentStep (v : Step) (s : State) : State :=
  {| apiKey := apiKey s; currentStep := v; imageFiles := imageFiles s;
     imageDataUrls := imageDataUrls s; plantName := plantName s;
     healthAnalysis := healthAnalysis s; goalAnalysis := goalAnalysis s;
     userGoal := userGoal s; loadingMessage := loadingMessage s;
     error := error s |}.

Definition setImageFiles (v : list (option File)) (s : State) : State :=
  {| apiKey := apiKey s; currentStep := currentStep s; imageFiles := v;
     imageDataUrls := imageDataUrls s; plantName := plantName s;
     healthAnalysis := healthAnalysis s; goalAnalysis := goalAnalysis s;
     userGoal := userGoal s; loadingMessage := loadingMessage s;
     error := error s |}.

Definition setImageDataUrls (v : list (option (list N))) (s : State)
  : State :=
  {| apiKey := apiKey s; currentStep := currentStep s;
     imageFiles := imageFiles s; imageDataUrls := v;
     plantName := plantName s; healthAnalysis := healthAnalysis s;
     goalAnalysis := goalAnalysis s; userGoal := userGoal s;
     loadingMessage := loadingMessage s; error := error s |}.

Definition setPlantName (v : list N) (s : State) : State :=
  {| apiKey := apiKey s; currentStep := currentStep s;
     imageFiles := imageFiles s; imageDataUrls := imageDataUrls s;
     plantName := v; healthAnalysis := healthAnalysis s;
     goalAnalysis := goalAnalysis s; userGoal := userGoal s;
     loadingMessage := loadingMessage s; error := error s |}.

Definition setHealthAnalysis (v : list N) (s : State) : State :=
  {| apiKey := apiKey s; currentStep := currentStep s;
     imageFiles := imageFiles s; imageDataUrls := imageDataUrls s;
     plantName := plantName s; healthAnalysis := v;
     goalAnalysis := goalAnalysis s; userGoal := userGoal s;
     loadingMessage := loadingMessage s; error := error s |}.

Definition setGoalAnalysis (v : list N) (s : State) : State :=
  {| apiKey := apiKey s; currentStep := currentStep s;
     imageFiles := imageFiles s; imageDataUrls := imageDataUrls s;
     plantName := plantName s; healthAnalysis := healthAnalysis s;
     goalAnalysis := v; userGoal := userGoal s;
     loadingMessage := loadingMessage s; error := error s |}.

Definition setUserGoal (v : list N) (s : State) : State :=
  {| apiKey := apiKey s; currentStep := currentStep s;
     imageFiles := imageFiles s; imageDataUrls := imageDataUrls s;
     plantName := plantName s; healthAnalysis := healthAnalysis s;
     goalAnalysis := goalAnalysis s; userGoal := v;
     loadingMessage := loadingMessage s; error := error s |}.

Definition setLoadingMessage (v : option (list N)) (s : State) : State :=
  {| apiKey := apiKey s; currentStep := currentStep s;
     imageFiles := imageFiles s; imageDataUrls := imageDataUrls s;
     plantName := plantName s; healthAnalysis := healthAnalysis s;
     goalAnalysis := goalAnalysis s; userGoal := userGoal s;
     loadingMessage := v; error := error s |}.

Definition setError (v : option (list N)) (s : State) : State :=
  {| apiKey := apiKey s; currentStep := currentStep s;
     imageFiles := imageFiles s; imageDataUrls := imageDataUrls s;
     plantName := plantName s; healthAnalysis := healthAnalysis s;
     goalAnalysis := goalAnalysis s; userGoal := userGoal s;
     loadingMessage := loadingMessage s; error := v |}.

(** The arguments of the [useState] calls: the state of the first
    render. *)
Definition initial_state : State :=
  {| apiKey := None; currentStep := UPLOAD;
     imageFiles := [None; None]; imageDataUrls := [None; None];
     plantName := []; healthAnalysis := []; goalAnalysis := [];
     userGoal := []; loadingMessage := None; error := None |}.

(** ** Messages *)

Definition MSG_NOT_AN_IMAGE : list N := js "Vui lòng chỉ chọn tệp hình ảnh.".
Definition MSG_NO_IMAGE : list N :=
  js "Vui lòng tải lên ít nhất một hình ảnh.".
Definition MSG_IDENTIFYING : list N := js "Đang nhận dạng cây của bạn...".
Definition MSG_IDENTIFY_FAILED : list N :=
  js "Không thể nhận dạng cây. Vui lòng thử lại với hình ảnh khác.".
Definition MSG_EMPTY_NAME : list N := js "Tên cây không được để trống.".
Definition MSG_ANALYZING : list N :=
  js "AI đang phân tích sức khỏe cây trồng...".
Definition MSG_ANALYSIS_FAILED : list N :=
  js "Phân tích không thành công. Vui lòng thử lại.".
Definition MSG_EMPTY_GOAL : list N := js "Vui lòng nhập mục tiêu chăm sóc.".
Definition MSG_ADVISING : list N := js "Đang tạo lời khuyên chuyên sâu...".
Definition MSG_ADVICE_FAILED : list N :=
  js "Không thể tạo lời khuyên. Vui lòng thử lại.".

(** ** The page around the component *)

(** A call to the model that has been started and has not settled, with
    the values its handler closed over. *)
Inductive Call : Type :=
| Identify (key : option (list N)) (files : list (option File))
| Analyze (key : option (list N)) (files : list (option File))
    (name : list N)
| Advise (key : option (list N)) (name report goal : list N).

(** A [FileReader] that is still reading: the slot it was started for
    and the [imageDataUrls] its [onloadend] closed over. *)
Record Reader : Type := {
  reader_index : nat;
  reader_urls : list (option (list N))
}.

Record World : Type := {
  mounted : bool;
  app : State;
  sessionStorage : gmap (list N) StoredText;
  pending : option Call;
  readers : list Reader
}.

Definition with_app (f : State -> State) (w : World) : World :=
  {| mounted := mounted w; app := f (app w);
     sessionStorage := sessionStorage w; pending := pending w;
     readers := readers w |}.

Definition with_storage
    (f : gmap (list N) StoredText -> gmap (list N) StoredText) (w : World)
  : World :=
  {| mounted := mounted w; app := app w;
     sessionStorage := f (sessionStorage w); pending := pending w;
     readers := readers w |}.

Definition with_pending (c : option Call) (w : World) : World :=
  {| mounted := mounted w; app := app w;
     sessionStorage := sessionStorage w; pending := c;
     readers := readers w |}.

Definition with_readers (r : list Reader) (w : World) : World :=
  {| mounted := mounted w; app := app w;
     sessionStorage := sessionStorage w; pending := pending w;
     readers := r |}.

Definition with_mounted (b : bool) (w : World) : World :=
  {| mounted := b; app := app w;
     sessionStorage := sessionStorage w; pending := pending w;
     readers := readers w |}.

(** The page when it is opened: the first render, effects not yet run;
    the tab's session storage may hold anything. *)
Definition initial (storage : gmap (list N) StoredText) : World :=
  {| mounted := false; app := initial_state; sessionStorage := storage;
     pending := None; readers := [] |}.

(** What is outside the program and answers its calls:
    [utils/fileUtils.fileToGenerativePart] and the hosted model. *)
Record Env : Type := {
  fileToGenerativePart : File -> Promise Part;
  generateContent : GoogleGenAI
}.

(** ** [useApiKey] *)

(** The effect of [useApiKey], run once after the first render at time
    [now]. *)
Definition useApiKey_effect (now : Z) (w : World) : World :=
  match sessionStorage w !! STORAGE_KEY with
  | Some (CredentialJSON key timestamp) =>
      if (now - timestamp <? SESSION_TIMEOUT_MS)%Z
      then with_app (setApiKey (Some key)) w
      else with_storage (delete STORAGE_KEY) w
  | Some OtherText => with_storage (delete STORAGE_KEY) w
  | Some EmptyText => w
  | None => w
  end.

(** The effect of [App] with dependency [[apiKey]], as run by a render
    that saw [seen] in [apiKey]. *)
Definition App_effect (seen : option (list N)) (s : State) : State :=
  if negb (truthy_opt seen) then setCurrentStep API_KEY s
  else setCurrentStep UPLOAD s.

(** The render that follows a batch of updates: the effect runs again
    when [apiKey] differs from the value [before] of the last render. *)
Definition rerender (before : option (list N)) (w : World) : World :=
  if decide (apiKey (app w) = before) then w
  else with_app (App_effect (apiKey (app w))) w.

(** Both effects after the first render, which saw [apiKey] as it then
    was, and the render that their updates cause. *)
Definition mount (now : Z) (w : World) : World :=
  let seen := apiKey (app w) in
  let w1 := useApiKey_effect now w in
  let w2 := with_app (App_effect seen) w1 in
  with_mounted true (rerender seen w2).

Definition saveApiKey (key : list N) (now : Z) (w : World) : World :=
  if truthy key then
    let item := CredentialJSON key now in
    with_app (setApiKey (Some key))
      (with_storage (insert STORAGE_KEY item) w)
  else w.

(** [handleSubmit] of [ApiKeyInput], whose input holds [key]. *)
Definition handleSubmit (key : list N) (now : Z) (w : World) : World :=
  if truthy (trim key) then
    rerender (apiKey (app w)) (saveApiKey (trim key) now w)
  else w.

(** ** Handlers of [App] *)

Definition resetWorkflow (s : State) : State :=
  setCurrentStep UPLOAD
    (setError None
      (setLoadingMessage None
        (setUserGoal []
          (setGoalAnalysis []
            (setHealthAnalysis []
              (setPlantName []
                (setImageDataUrls [None; None]
                  (setImageFiles [None; None] s)))))))).

(** [handleImageChange(index)] on a change event whose file list starts
    with [file] ([None]: the list is empty). *)
Definition handleImageChange (index : nat) (file : option File)
    (w : World) : World :=
  match file with
  | Some f =>
      if negb (startsWith (file_type f) (js "image/")) then
        with_app (setError (Some MSG_NOT_AN_IMAGE)) w
      else
        let newImageFiles := <[index := Some f]> (imageFiles (app w)) in
        let reader := {| reader_index := index;
                         reader_urls := imageDataUrls (app w) |} in
        with_readers (readers w ++ [reader])
          (with_app (setImageFiles newImageFiles) w)
  | None => w
  end.

(** [reader.onloadend] of the [k]-th reader still reading, with
    [reader.result]. *)
Definition onloadend (k : nat) (result : option (list N)) (w : World)
  : option World :=
  match readers w !! k with
  | Some r =>
      let newImageDataUrls := <[reader_index r := result]> (reader_urls r) in
      Some (with_readers (delete k (readers w))
              (with_app (setImageDataUrls newImageDataUrls) w))
  | None => None
  end.

Definition isFile (f : option File) : bool :=
  match f with Some _ => true | None => false end.

(** [handleIdentification] up to its first [await]. *)
Definition handleIdentification (w : World) : World :=
  let s := app w in
  if negb (existsb isFile (imageFiles s)) then
    with_app (setError (Some MSG_NO_IMAGE)) w
  else
    with_pending (Some (Identify (apiKey s) (imageFiles s)))
      (with_app (fun s => setError None
                            (setLoadingMessage (Some MSG_IDENTIFYING) s)) w).

(** [handleAnalysis] up to its first [await]. *)
Definition handleAnalysis (w : World) : World :=
  let s := app w in
  if negb (truthy (trim (plantName s))) then
    with_app (setError (Some MSG_EMPTY_NAME)) w
  else
    with_pending (Some (Analyze (apiKey s) (imageFiles s) (plantName s)))
      (with_app (fun s => setError None
                            (setLoadingMessage (Some MSG_ANALYZING) s)) w).

(** [handleGoalAdvice] up to its [await]. *)
Definition handleGoalAdvice (w : World) : World :=
  let s := app w in
  if negb (truthy (trim (userGoal s))) then
    with_app (setError (Some MSG_EMPTY_GOAL)) w
  else
    with_pending
      (Some (Advise (apiKey s) (plantName s) (healthAnalysis s) (userGoal s)))
      (with_app (fun s => setError None
                            (setLoadingMessage (Some MSG_ADVISING) s)) w).

(** The [imageParts] both image handlers await. *)
Definition imageParts (env : Env) (files : list (option File))
  : Promise (list Part) :=
  Promise_all (map (fileToGenerativePart env) (omap id files)).

(** What the [try] block of the handler that started [c] awaits. *)
Definition call_result (env : Env) (c : Call) : Promise (list N) :=
  match c with
  | Identify key files =>
      parts <- await imageParts env files ;;
      identifyPlant (generateContent env) key parts
  | Analyze key files name =>
      parts <- await imageParts env files ;;
      analyzePlantHealth (generateContent env) key parts name
  | Advise key name report goal =>
      getGoalOrientedAdvice (generateContent env) key name report goal
  end.

(** The rest of the handler once its call has settled: the end of the
    [try] block or the [catch] block, then [finally]. *)
Definition settled (c : Call) (r : Promise (list N)) (s : State) : State :=
  let s' :=
    match c, r with
    | Identify _ _, Fulfilled name =>
        setCurrentStep CONFIRM (setPlantName name s)
    | Identify _ _, Rejected => setError (Some MSG_IDENTIFY_FAILED) s
    | Analyze _ _ _, Fulfilled result =>
        setCurrentStep DIAGNOSE (setHealthAnalysis result s)
    | Analyze _ _ _, Rejected => setError (Some MSG_ANALYSIS_FAILED) s
    | Advise _ _ _ _, Fulfilled result => setGoalAnalysis result s
    | Advise _ _ _ _, Rejected => setError (Some MSG_ADVICE_FAILED) s
    end in
  setLoadingMessage None s'.

Definition settle (env : Env) (w : World) : option World :=
  match pending w with
  | Some c =>
      Some (with_pending None (with_app (settled c (call_result env c)) w))
  | None => None
  end.

(** [onReset] of the [ErrorView] that [renderContent] builds. *)
Definition ErrorView_onReset (s : State) : State :=
  setCurrentStep UPLOAD (setError None s).

(** ** [renderContent]: the view on screen *)

Inductive View : Type :=
| LoadingView (message : list N)
| ErrorView (message : list N)
| ApiKeyInput
| UploadStep
| ConfirmStep
| DiagnoseStep
| GoalStep.

Definition renderContent (s : State) : View :=
  match loadingMessage s with
  | Some (c :: m) => LoadingView (c :: m)
  | _ =>
      match error s with
      | Some (c :: m) => ErrorView (c :: m)
      | _ =>
          match currentStep s with
          | API_KEY => ApiKeyInput
          | UPLOAD => UploadStep
          | CONFIRM => ConfirmStep
          | DIAGNOSE => DiagnoseStep
          | GOAL => GoalStep
          end
      end
  end.

(** ** Events *)

(** What can happen to the page: the first effects run; the user acts on
    a control of the view on screen; a file reader or a model call
    finishes. *)
Inductive Event : Type :=
| Mount (now : Z)
| SubmitKey (key : list N) (now : Z)
| ImageChange (index : nat) (file : option File)
| UploadNext
| PlantNameChange (value : list N)
| ConfirmNext
| DiagnoseNext
| UserGoalChange (value : list N)
| AnalyzeGoal
| StartOver
| Retry
| ReaderLoadEnd (k : nat) (result : option (list N))
| Settle (env : Env).

(** One event on the page; [None] when the event cannot happen there
    (its control is not on screen, nothing is being read or awaited). *)
Definition step (w : World) (e : Event) : option World :=
  match e with
  | Mount now => if mounted w then None else Some (mount now w)
  | _ =>
      if negb (mounted w) then None
      else
        match e, renderContent (app w) with
        | SubmitKey key now, ApiKeyInput => Some (handleSubmit key now w)
        | ImageChange index file, UploadStep =>
            if bool_decide (index < 2) then
              Some (handleImageChange index file w)
            else None
        | UploadNext, UploadStep => Some (handleIdentification w)
        | PlantNameChange v, ConfirmStep => Some (with_app (setPlantName v) w)
        | ConfirmNext, ConfirmStep => Some (handleAnalysis w)
        | DiagnoseNext, DiagnoseStep =>
            Some (with_app (setCurrentStep GOAL) w)
        | UserGoalChange v, GoalStep => Some (with_app (setUserGoal v) w)
        | AnalyzeGoal, GoalStep => Some (handleGoalAdvice w)
        | StartOver, GoalStep => Some (with_app resetWorkflow w)
        | Retry, ErrorView _ => Some (with_app ErrorView_onReset w)
        | ReaderLoadEnd k result, _ => onloadend k result w
        | Settle env, _ => settle env w
        | _, _ => None
        end
  end.

Fixpoint run (w : World) (events : list Event) : option World :=
  match events with
  | [] => Some w
  | e :: rest =>
      match step w e with
      | Some w' => run w' rest
      | None => None
      end
  end.

Definition reachable (w : World) : Prop :=
  exists storage events, run (initial storage) events = Some w.

Definition isSettle (e : Event) : bool :=
  match e with Settle _ => true | _ => false end.

End App.

(* ===================================================================== *)
(** * Sample inputs *)
(* ===================================================================== *)

Module Sample.
Import JS Markdown Gemini App.

(** The text of the markdown scenario. *)
Definition title_and_two_items : list N :=
  js "### Title" ++ [LF] ++ js "* a" ++ [LF] ++ js "* b" ++ [LF].

Definition photo : File :=
  {| file_type := js "image/png"; file_bytes := [137; 80; 78; 71]%N |}.

Definition inline (f : File) : Promise Part :=
  Fulfilled (InlineData (file_type f) (file_bytes f)).

(** A model that answers every request with the same text. *)
Definition answering (text : list N) : Env :=
  {| fileToGenerativePart := inline;
     generateContent := fun _ _ => Fulfilled text |}.

(** A model whose every call fails. *)
Definition failing : Env :=
  {| fileToGenerativePart := inline;
     generateContent := fun _ _ => Rejected |}.

Definition minutes (n : Z) : Z := n * 60 * 1000.

(** A session: the key is entered at time 0, a photo is picked and
    identified. *)
Definition to_upload : list Event := [Mount 0; SubmitKey (js " X ") 0].

Definition to_confirm : list Event :=
  to_upload ++ [ImageChange 0 (Some photo); UploadNext;
                Settle (answering (js " Hoa hồng "))].

(** ... then the analysis call fails. *)
Definition analysis_fails : list Event :=
  to_confirm ++ [ConfirmNext; Settle failing].

(** ... or the analysis succeeds and the user moves on to the goal. *)
Definition to_goal : list Event :=
  to_confirm ++ [ConfirmNext; Settle (answering (js "### OK")); DiagnoseNext].

(** The pages of that session. *)
Definition key_page : World :=
  with_app (setCurrentStep API_KEY) (with_mounted true (initial ∅)).

Definition upload_page : World :=
  with_app (fun s => setCurrentStep UPLOAD (setApiKey (Some (js "X")) s))
    (with_storage (insert STORAGE_KEY (CredentialJSON (js "X") 0)) key_page).

Definition confirm_page : World :=
  with_readers [{| reader_index := 0; reader_urls := [None; None] |}]
    (with_app (fun s => setCurrentStep CONFIRM
                          (setPlantName (js "Hoa hồng")
                             (setImageFiles [Some photo; None] s)))
       upload_page).

Definition analyzing_page : World :=
  with_pending
    (Some (Analyze (Some (js "X")) [Some photo; None] (js "Hoa hồng")))
    (with_app (setLoadingMessage (Some MSG_ANALYZING)) confirm_page).

Definition preview : list N := js "data:image/png;base64,iVBORw==".

Definition analyzing_page_with_preview : World :=
  with_readers []
    (with_app (setImageDataUrls [Some preview; None]) analyzing_page).

Definition failed_page : World :=
  with_app (setError (Some MSG_ANALYSIS_FAILED)) confirm_page.

Definition failed_page_with_preview : World :=
  with_readers []
    (with_app (fun s => setError (Some MSG_ANALYSIS_FAILED)
                          (setImageDataUrls [Some preview; None] s))
       confirm_page).

Definition goal_page : World :=
  with_app (fun s => setCurrentStep GOAL (setHealthAnalysis (js "### OK") s))
    confirm_page.

End Sample.

(* ===================================================================== *)
(** * What holds of every page the program can reach *)
(* ===================================================================== *)

Module Consistency.
Import JS Gemini App.

(** The step whose view starts a call. *)
Definition step_of_call (c : Call) : Step :=
  match c with
  | Identify _ _ => UPLOAD
  | Analyze _ _ _ => CONFIRM
  | Advise _ _ _ _ => GOAL
  end.

(** The view [renderContent] shows for a step when nothing is loading
    and there is no error. *)
Definition view_of_step (st : Step) : View :=
  match st with
  | API_KEY => ApiKeyInput
  | UPLOAD => UploadStep
  | CONFIRM => ConfirmStep
  | DIAGNOSE => DiagnoseStep
  | GOAL => GoalStep
  end.

Record consistent (w : World) : Prop := {
  (** before the effects have run, the page is as first rendered *)
  unmounted_initial :
    mounted w = false -> app w = initial_state /\ pending w = None;
  (** the loading message is there exactly while a call is awaited *)
  idle_not_loading : pending w = None -> loadingMessage (app w) = None;
  busy_loading : forall c, pending w = Some c ->
    (exists m, loadingMessage (app w) = Some m /\ truthy m = true)
    /\ error (app w) = None
    /\ currentStep (app w) = step_of_call c;
  (** an error is a message, and is never shown over the key form *)
  error_message : forall m, error (app w) = Some m ->
    truthy m = true /\ currentStep (app w) <> API_KEY;
  (** the key form is the step exactly while no key is held *)
  key_step : mounted w = true ->
    (truthy_opt (apiKey (app w)) = false <-> currentStep (app w) = API_KEY)
}.

(** Both image arrays keep their two slots, and every reader was started
    for one of them: the array assignments of [handleImageChange] and of
    [onloadend] are always in range. *)
Definition two_slots (w : World) : Prop :=
  length (imageFiles (app w)) = 2
  /\ length (imageDataUrls (app w)) = 2
  /\ Forall (fun r => reader_index r < 2 /\ length (reader_urls r) = 2)
       (readers w).

End Consistency.

(* ===================================================================== *)
(** * The shape of rendered markdown *)
(* ===================================================================== *)

Module Shape.
Import JS Markdown.

Definition is_ul (e : option Element) : bool :=
  match e with Some (ul _) => true | _ => false end.

Definition is_li (e : option Element) : bool :=
  match e with Some (li _) => true | _ => false end.

(** The elements with every list replaced by its children. *)
Definition flatten (elements : list (option Element))
  : list (option Element) :=
  elements ≫= (fun e => match e with Some (ul children) => children | _ => [e] end).

(** Two lists stand next to each other somewhere in the elements. *)
Fixpoint adjacent_lists (elements : list (option Element)) : bool :=
  match elements with
  | e1 :: rest =>
      (is_ul e1 && match rest with e2 :: _ => is_ul e2 | [] => false end)
      || adjacent_lists rest
  | [] => false
  end.

(** An element as the loop can leave it at the top level: not a bare
    item, and a list only with items in it, at least one. *)
Definition well_formed (e : option Element) : Prop :=
  match e with
  | Some (ul children) => children <> [] /\ forallb is_li children = true
  | Some (li _) => False
  | _ => True
  end.

(** Two stars stand next to each other somewhere in the text. *)
Fixpoint has_double_star (s : list N) : bool :=
  match s with
  | c :: r =>
      ((c =? STAR)%N && match r with d :: _ => (d =? STAR)%N | [] => false end)
      || has_double_star r
  | [] => false
  end.

(** What the loop keeps true of [elements] and [inList]: every element
    is well formed, no two lists are adjacent, and [inList] says whether
    the last element is a list. *)
Definition loop_invariant (st : list (option Element) * bool) : Prop :=
  Forall well_formed st.1
  /\ adjacent_lists st.1 = false
  /\ st.2 = from_option is_ul false (last st.1).

End Shape.

(* ===================================================================== *)
(** * [App]: the frame around the content *)
(* ===================================================================== *)

Module Layout.
Import JS App.

Definition stepOrder : list Step := [UPLOAD; CONFIRM; DIAGNOSE; GOAL].

(** [Array.prototype.indexOf]: the first position of [x], or -1. *)
Fixpoint indexOf_from (i : Z) (l : list Step) (x : Step) : Z :=
  match l with
  | [] => (-1)%Z
  | y :: r => if decide (y = x) then i else indexOf_from (i + 1)%Z r x
  end.

Definition indexOf (l : list Step) (x : Step) : Z := indexOf_from 0 l x.

Record StepInfo : Type := {
  step_name : list N;
  step_description : list N
}.

Definition STEPS : list StepInfo :=
  [{| step_name := js "Tải ảnh"; step_description := js "Cung cấp hình ảnh cây trồng" |};
   {| step_name := js "Xác nhận"; step_description := js "Xác nhận tên loại cây" |};
   {| step_name := js "Chẩn đoán"; step_description := js "Phân tích sức khỏe cây" |};
   {| step_name := js "Tư vấn"; step_description := js "Nhận lời khuyên chuyên sâu" |}].

(** What [VerticalStepper] draws for one entry of [STEPS]: a check mark,
    or the number of the step in the current or the upcoming style. *)
Inductive StepMark : Type :=
| Completed (name : list N)
| Current (number name : list N)
| Upcoming (number name : list N).

Definition VerticalStepper (currentStepIndex : Z) : list StepMark :=
  imap (fun index step =>
          let number := js "0" ++ js (pretty (index + 1)) in
          if (Z.of_nat index <? currentStepIndex)%Z then
            Completed (step_name step)
          else if (Z.of_nat index =? currentStepIndex)%Z then
            Current number (step_name step)
          else Upcoming number (step_name step))
       STEPS.

(** What [App] returns: the content alone while the step is API_KEY,
    else the header, the stepper and the content. *)
Inductive Screen : Type :=
| KeyScreen (content : View)
| WorkflowScreen (stepper : list StepMark) (content : View).

Definition App_render (s : State) : Screen :=
  let currentStepIndex := indexOf stepOrder (currentStep s) in
  if decide (currentStep s = API_KEY) then KeyScreen (renderContent s)
  else WorkflowScreen (VerticalStepper currentStepIndex) (renderContent s).

End Layout.

(* ===================================================================== *)
(** * What a call in flight was started with *)
(* ===================================================================== *)

Module Inputs.
Import JS Gemini App.



End Inputs.

(* ===================================================================== *)
(** * [service-worker.js] *)
(* ===================================================================== *)

Module ServiceWorker.
Import JS Gemini.

Definition CACHE_NAME : list N := js "plant-ai-expert-v1".

(** The URLs as written; one that starts with a slash is on the
    worker's own origin. *)
Definition urlsToCache : list (list N) :=
  [js "/";
   js "/index.html";
   js "/index.tsx";
   js "/App.tsx";
   js "/services/geminiService.ts";
   js "/utils/fileUtils.ts";
   js "/components/Spinner.tsx";
   js "/components/icons.tsx";
   js "/components/MarkdownRenderer.tsx";
   js "/assets/icon-192x192.png";
   js "/assets/icon-512x512.png";
   js "https://cdn.tailwindcss.com";
   js "https://fonts.googleapis.com/css2?family=Be+Vietnam+Pro:wght@400;500;700&display=swap"].

Record Request : Type := { method : list N; url : list N }.

Definition GET (u : list N) : Request := {| method := js "GET"; url := u |}.

Record Response : Type := { status : Z; body : list N }.

(** [response.ok] *)
Definition ok (r : Response) : bool :=
  (200 <=? status r)%Z && (status r <=? 299)%Z.

(** The network behind [fetch]. *)
Definition Network : Type := Request -> Promise Response.

(** A [Cache] maps the URL of a GET request to the response stored for
    it ([Vary] headers are not modelled); the [CacheStorage] holds the
    named caches in the order they were created. *)
Definition cache_names (caches : list (list N * gmap (list N) Response))
  : list (list N) :=
  map fst caches.

(** [caches.open(name)]: the cache is created when it is not there. *)
Definition caches_open (name : list N)
    (caches : list (list N * gmap (list N) Response))
  : list (list N * gmap (list N) Response) :=
  if bool_decide (name ∈ cache_names caches) then caches
  else caches ++ [(name, ∅)].

(** [caches.match(request)]: the first stored response over the caches
    in creation order; nothing for a request that is not a GET. *)
Fixpoint caches_match (caches : list (list N * gmap (list N) Response))
    (request : Request) : option Response :=
  match caches with
  | [] => None
  | (_, cache) :: rest =>
      if bool_decide (method request = js "GET") then
        match cache !! url request with
        | Some r => Some r
        | None => caches_match rest request
        end
      else None
  end.

(** The requests of [cache.addAll(urls)]: each URL is fetched, and a
    response that is not [ok] rejects the whole. *)
Definition fetch_all (net : Network) (urls : list (list N))
  : Promise (list (list N * Response)) :=
  Promise_all
    (map (fun u => r <- await net (GET u) ;;
                   if ok r then Fulfilled (u, r) else Rejected)
         urls).

Definition put_all (responses : list (list N * Response))
    (cache : gmap (list N) Response) : gmap (list N) Response :=
  foldl (fun c ur => <[ur.1 := ur.2]> c) cache responses.

Definition update_cache (name : list N)
    (f : gmap (list N) Response -> gmap (list N) Response)
    (caches : list (list N * gmap (list N) Response))
  : list (list N * gmap (list N) Response) :=
  map (fun c => if decide (c.1 = name) then (c.1, f c.2) else c) caches.

(** The [install] listener: the cache storage it leaves and the promise
    it hands to [event.waitUntil]. *)
Definition oninstall (net : Network)
    (caches : list (list N * gmap (list N) Response))
  : list (list N * gmap (list N) Response) * Promise unit :=
  let opened := caches_open CACHE_NAME caches in
  match fetch_all net urlsToCache with
  | Fulfilled responses =>
      (update_cache CACHE_NAME (put_all responses) opened, Fulfilled tt)
  | Rejected => (opened, Rejected)
  end.

(** The [fetch] listener: the promise it hands to [event.respondWith]. *)
Definition onfetch (caches : list (list N * gmap (list N) Response))
    (net : Network) (request : Request) : Promise Response :=
  match caches_match caches request with
  | Some response => Fulfilled response
  | None => net request
  end.

End ServiceWorker.

(* ===================================================================== *)
(** * More sample inputs *)
(* ===================================================================== *)

Module Sample2.
Import JS Gemini App ServiceWorker.

(** A network on which every request is answered with the same page. *)
Definition online : Network :=
  fun _ => Fulfilled {| status := 200; body := js "<!doctype html>" |}.

(** A network on which the font sheet is not found. *)
Definition no_fonts : Network :=
  fun request =>
    if bool_decide (url request = js "https://cdn.tailwindcss.com")
    then Fulfilled {| status := 404; body := [] |}
    else online request.

(** No network at all. *)
Definition offline : Network := fun _ => Rejected.

(** A request of the program to the model's endpoint. *)
Definition model_request : Request :=
  {| method := js "POST";
     url := js "https://generativelanguage.googleapis.com/v1beta/models/gemini-2.5-flash:generateContent" |}.

(** Two images picked one after the other, and their reads ending. *)
Definition picked_one : World :=
  with_readers [{| reader_index := 0; reader_urls := [None; None] |}]
    (with_app (setImageFiles [Some Sample.photo; None]) Sample.upload_page).

Definition picked_two : World :=
  with_readers [{| reader_index := 0; reader_urls := [None; None] |};
                {| reader_index := 1; reader_urls := [None; None] |}]
    (with_app (setImageFiles [Some Sample.photo; Some Sample.photo])
       Sample.upload_page).

Definition read_one : World :=
  with_readers [{| reader_index := 1; reader_urls := [None; None] |}]
    (with_app (setImageDataUrls [Some Sample.preview; None]) picked_two).

Definition read_two : World :=
  with_readers []
    (with_app (setImageDataUrls [None; Some Sample.preview]) picked_two).

(** A file that cannot be read, with a model that would answer. *)
Definition unreadable : Env :=
  {| fileToGenerativePart := fun _ => Rejected;
     generateContent := fun _ _ => Fulfilled (js "Hoa hồng") |}.

(** The goal page with a goal typed in, and the advice call in flight. *)
Definition goal_typed : World :=
  with_app (setUserGoal (js "ra hoa")) Sample.goal_page.

Definition advising_page : World :=
  with_pending
    (Some (Advise (Some (js "X")) (js "Hoa hồng") (js "### OK") (js "ra hoa")))
    (with_app (setLoadingMessage (Some MSG_ADVISING)) goal_typed).

Definition identifying_page : World :=
  with_pending (Some (Identify (Some (js "X")) [Some Sample.photo; None]))
    (with_app (setLoadingMessage (Some MSG_IDENTIFYING)) picked_one).

End Sample2.

(* ===================================================================== *)
(** * Properties of the request formatter *)
(* ===================================================================== *)

Module GeminiFacts.
Import JS Gemini.

Lemma await_Fulfilled {A : Type} (e : Promise A) :
  (x <- await e ;; Fulfilled x) = e.
Proof. by destruct e. Qed.

(** C8.  Each of the three operations sends one request to the model.
    [identifyPlant] returns the answer text trimmed;
    [analyzePlantHealth] and [getGoalOrientedAdvice] return the model's
    promise as it is, so the answer text unmodified; and on an answer
    with surrounding white space the trimmed result does differ from the
    answer. *)
Theorem only_identifyPlant_trims :
  (forall parts, exists request, forall ai key,
      identifyPlant ai key parts
      = (text <- await ai key request ;; Fulfilled (trim text)))
  /\ (forall parts name, exists request, forall ai key,
      analyzePlantHealth ai key parts name = ai key request)
  /\ (forall name report goal, exists request, forall ai key,
      getGoalOrientedAdvice ai key name report goal = ai key request)
  /\ (let text := js " Hoa " in
      let ai : GoogleGenAI := fun _ _ => Fulfilled text in
      identifyPlant ai None [] = Fulfilled (js "Hoa")
      /\ analyzePlantHealth ai None [] [] = Fulfilled text
      /\ getGoalOrientedAdvice ai None [] [] [] = Fulfilled text
      /\ js "Hoa" <> text).
Proof.
  split; [|split; [|split]].
  - intros. eexists. intros. reflexivity.
  - intros. eexists. intros. unfold analyzePlantHealth. apply await_Fulfilled.
  - intros. eexists. intros. unfold getGoalOrientedAdvice.
    apply await_Fulfilled.
  - vm_compute. repeat split; discriminate.
Qed.

End GeminiFacts.

(* ===================================================================== *)
(** * Properties of the markdown renderer *)
(* ===================================================================== *)

Module MarkdownFacts.
Import JS Markdown.

Lemma last_snoc_elements (l : list (option Element)) x :
  last (l ++ [x]) = Some x.
Proof. apply last_snoc. Qed.

Lemma insert_last_snoc (l : list (option Element)) x y :
  <[length (l ++ [x]) - 1 := y]> (l ++ [x]) = l ++ [y].
Proof.
  rewrite length_app. simpl.
  replace (length l + 1 - 1) with (length l + 0) by lia.
  by rewrite insert_app_r.
Qed.

(** The loop only ever looks at the last element it has pushed: what
    was pushed before a point is carried along unchanged. *)
Lemma loop_body_prefix pre els inList line :
  (inList = true -> els <> []) ->
  loop_body (pre ++ els, inList) line
  = (pre ++ (loop_body (els, inList) line).1,
     (loop_body (els, inList) line).2)
  /\ ((loop_body (els, inList) line).2 = true ->
      (loop_body (els, inList) line).1 <> []).
Proof.
  intros Hne. unfold loop_body.
  destruct (startsWith line (js "* ")) eqn:Hitem; destruct inList; simpl.
  - destruct els as [|e0 els0] using rev_ind; [by destruct Hne|].
    clear IHels0. rewrite app_assoc, !last_snoc.
    destruct e0 as [[]|]; simpl;
      rewrite ?insert_last_snoc, <- ?app_assoc;
      (split; [reflexivity|]); try exact Hne.
    intros _ Hnil. by apply app_eq_nil in Hnil as [_ ?].
  - rewrite <- app_assoc. split; [reflexivity|].
    intros _ Hnil. by apply app_eq_nil in Hnil as [_ ?].
  - rewrite <- app_assoc. split; [reflexivity|done].
  - rewrite <- app_assoc. split; [reflexivity|done].
Qed.

Lemma fold_loop_prefix lines : forall pre els inList,
  (inList = true -> els <> []) ->
  fold_left loop_body lines (pre ++ els, inList)
  = (pre ++ (fold_left loop_body lines (els, inList)).1,
     (fold_left loop_body lines (els, inList)).2).
Proof.
  induction lines as [|line lines IH]; intros pre els inList Hne; [done|].
  cbn [fold_left].
  destruct (loop_body_prefix pre els inList line Hne) as [-> Hne'].
  destruct (loop_body (els, inList) line) as [els' inList'].
  by apply IH.
Qed.

(** Lines that do not open with a list item render after any elements
    as they render on their own. *)
Lemma fold_loop_after pre inList after :
  (forall l, head after = Some l -> startsWith l (js "* ") = false) ->
  (fold_left loop_body after (pre, inList)).1 = pre ++ render_lines after.
Proof.
  destruct after as [|l rest]; intros Hhead.
  - simpl. by rewrite app_nil_r.
  - unfold render_lines. cbn [fold_left].
    assert (Hl : startsWith l (js "* ") = false) by by apply Hhead.
    assert (Hstep : forall els b,
               loop_body (els, b) l = (els ++ [renderLine l], false)).
    { intros els b. unfold loop_body. by rewrite Hl. }
    rewrite !Hstep.
    by rewrite (fold_loop_prefix rest pre [renderLine l] false).
Qed.

(** C5.  Wherever the three lines "### Title", "* a", "* b" stand in
    the input -- after any lines, and before the end of the input or a
    line that is not a list item -- they produce a heading element
    immediately followed by one list element that holds the two items
    a and b; the lines before and after render as they do alone. *)
Theorem heading_then_one_list_of_two (before after : list (list N)) :
  (forall l, head after = Some l -> startsWith l (js "* ") = false) ->
  render_lines (before ++ [js "### Title"; js "* a"; js "* b"] ++ after)
  = render_lines before
    ++ [Some (h3 (js "Title"));
        Some (ul [Some (li (js "a")); Some (li (js "b"))])]
    ++ render_lines after.
Proof.
  intros Hhead. unfold render_lines at 1.
  rewrite fold_left_app.
  destruct (fold_left loop_body before ([], false)) as [els inList] eqn:Hb.
  replace (render_lines before) with els
    by (unfold render_lines; by rewrite Hb).
  change (fold_left loop_body ([js "### Title"; js "* a"; js "* b"] ++ after)
            (els, inList))
    with (fold_left loop_body after
            (loop_body (loop_body (loop_body (els, inList) (js "### Title"))
                          (js "* a")) (js "* b"))).
  assert (Hthree :
    loop_body (loop_body (loop_body (els, inList) (js "### Title"))
                 (js "* a")) (js "* b")
    = (els ++ [Some (h3 (js "Title"));
               Some (ul [Some (li (js "a")); Some (li (js "b"))])], true)).
  { change (loop_body (els, inList) (js "### Title"))
      with (els ++ [Some (h3 (js "Title"))], false).
    change (loop_body (els ++ [Some (h3 (js "Title"))], false) (js "* a"))
      with ((els ++ [Some (h3 (js "Title"))])
              ++ [Some (ul [Some (li (js "a"))])], true).
    unfold loop_body.
    change (startsWith (js "* b") (js "* ")) with true. simpl andb.
    cbv iota. rewrite last_snoc, insert_last_snoc.
    by rewrite <- app_assoc. }
  rewrite Hthree, (fold_loop_after _ _ _ Hhead).
  by rewrite <- app_assoc.
Qed.

(** The scenario's text, where the last line break leaves an empty last
    line: a heading, one list of two items, and the [null] of the empty
    line, which renders nothing. *)
Lemma heading_then_one_list_of_two_witness :
  MarkdownRenderer Sample.title_and_two_items
  = [Some (h3 (js "Title"));
     Some (ul [Some (li (js "a")); Some (li (js "b"))]); None]
  /\ rendered (MarkdownRenderer Sample.title_and_two_items)
     = [h3 (js "Title"); ul [Some (li (js "a")); Some (li (js "b"))]].
Proof.
  assert (Hhead : forall l : list N,
             head [[]] = Some l -> startsWith l (js "* ") = false).
  { intros l [= <-]. reflexivity. }
  pose proof (heading_then_one_list_of_two [] [[]] Hhead) as H.
  split; [exact H|].
  unfold MarkdownRenderer.
  change (split LF Sample.title_and_two_items)
    with ([] ++ [js "### Title"; js "* a"; js "* b"] ++ [[] : list N]).
  rewrite H. reflexivity.
Defined.

End MarkdownFacts.

(* ===================================================================== *)
(** * Properties of the session key store and the workflow *)
(* ===================================================================== *)

Module AppFacts.
Import JS Gemini App Consistency.

(** ** The views *)

Lemma renderContent_cases (s : State) :
  (exists m, loadingMessage s = Some m /\ truthy m = true
             /\ renderContent s = LoadingView m)
  \/ (truthy_opt (loadingMessage s) = false
      /\ exists m, error s = Some m /\ truthy m = true
                   /\ renderContent s = ErrorView m)
  \/ (truthy_opt (loadingMessage s) = false
      /\ truthy_opt (error s) = false
      /\ renderContent s = view_of_step (currentStep s)).
Proof.
  unfold renderContent.
  destruct (loadingMessage s) as [[|c m]|]; simpl;
    try (left; eexists; by repeat split);
    (destruct (error s) as [[|c' m']|]; simpl;
     [ right; right | right; left; split; [done|]; eexists | right; right ];
     by destruct (currentStep s)).
Qed.

(** ** One event *)

(** When an event can happen, and what it runs. *)
Lemma step_inv w e w' :
  step w e = Some w' ->
  match e with
  | Mount now => mounted w = false /\ w' = mount now w
  | SubmitKey key now =>
      mounted w = true /\ renderContent (app w) = ApiKeyInput
      /\ w' = handleSubmit key now w
  | ImageChange index file =>
      mounted w = true /\ renderContent (app w) = UploadStep
      /\ index < 2 /\ w' = handleImageChange index file w
  | UploadNext =>
      mounted w = true /\ renderContent (app w) = UploadStep
      /\ w' = handleIdentification w
  | PlantNameChange v =>
      mounted w = true /\ renderContent (app w) = ConfirmStep
      /\ w' = with_app (setPlantName v) w
  | ConfirmNext =>
      mounted w = true /\ renderContent (app w) = ConfirmStep
      /\ w' = handleAnalysis w
  | DiagnoseNext =>
      mounted w = true /\ renderContent (app w) = DiagnoseStep
      /\ w' = with_app (setCurrentStep GOAL) w
  | UserGoalChange v =>
      mounted w = true /\ renderContent (app w) = GoalStep
      /\ w' = with_app (setUserGoal v) w
  | AnalyzeGoal =>
      mounted w = true /\ renderContent (app w) = GoalStep
      /\ w' = handleGoalAdvice w
  | StartOver =>
      mounted w = true /\ renderContent (app w) = GoalStep
      /\ w' = with_app resetWorkflow w
  | Retry =>
      mounted w = true /\ (exists m, renderContent (app w) = ErrorView m)
      /\ w' = with_app ErrorView_onReset w
  | ReaderLoadEnd k result =>
      mounted w = true /\ onloadend k result w = Some w'
  | Settle env => mounted w = true /\ settle env w = Some w'
  end.
Proof.
  intros H. destruct e; unfold step in H;
    destruct (mounted w) eqn:Hm; simpl in H; try discriminate;
    try (injection H as <-; by split);
    destruct (renderContent (app w)) eqn:Hview; try discriminate;
    try case_bool_decide; simplify_eq; eauto 6.
Qed.

(** ** Views of a consistent page *)

Lemma view_of_step_inj st st' : view_of_step st = view_of_step st' -> st = st'.
Proof. by destruct st, st'. Qed.

Lemma consistent_step_view w st :
  consistent w -> renderContent (app w) = view_of_step st ->
  pending w = None /\ loadingMessage (app w) = None
  /\ error (app w) = None /\ currentStep (app w) = st.
Proof.
  intros Hc Hview.
  destruct (renderContent_cases (app w))
    as [(m & Hl & Hm & Hv)|[(Hl & m & He & Hm & Hv)|(Hl & He & Hv)]];
    rewrite Hv in Hview; try (by destruct st).
  apply view_of_step_inj in Hview.
  assert (Hp : pending w = None).
  { destruct (pending w) as [c|] eqn:Hp; [|done].
    destruct (busy_loading w Hc c Hp) as ((m & Hl' & Hm) & _).
    rewrite Hl' in Hl. simpl in Hl. congruence. }
  repeat split; try done.
  - by apply idle_not_loading.
  - destruct (error (app w)) as [m|] eqn:Herr; [|done].
    destruct (error_message w Hc m Herr) as [Hm _].
    simpl in He. congruence.
Qed.

Lemma consistent_error_view w m :
  consistent w -> renderContent (app w) = ErrorView m ->
  pending w = None /\ loadingMessage (app w) = None
  /\ error (app w) = Some m /\ truthy m = true
  /\ currentStep (app w) <> API_KEY.
Proof.
  intros Hc Hview.
  destruct (renderContent_cases (app w))
    as [(m' & Hl & Hm & Hv)|[(Hl & m' & He & Hm & Hv)|(Hl & He & Hv)]];
    rewrite Hv in Hview; try discriminate;
    [|by destruct (currentStep (app w))].
  injection Hview as ->.
  assert (Hp : pending w = None).
  { destruct (pending w) as [c|] eqn:Hp; [|done].
    destruct (busy_loading w Hc c Hp) as ((m' & Hl' & Hm') & _).
    rewrite Hl' in Hl. simpl in Hl. congruence. }
  repeat split; try done.
  - by apply idle_not_loading.
  - by apply (error_message w Hc m He).
Qed.

(** While the loading view is on screen only a reader or the awaited
    call can do anything. *)
Lemma loading_events w e w' :
  mounted w = true -> truthy_opt (loadingMessage (app w)) = true ->
  step w e = Some w' ->
  match e with
  | ReaderLoadEnd _ _ | Settle _ => True
  | _ => False
  end.
Proof.
  intros Hm Hl Hs. apply step_inv in Hs.
  assert (Hv : exists m, renderContent (app w) = LoadingView m).
  { unfold renderContent.
    destruct (loadingMessage (app w)) as [[|c m]|]; try discriminate.
    by eexists. }
  destruct Hv as [m Hv].
  destruct e; try done; destruct Hs as (Hm' & Hs); try congruence;
    destruct Hs as (Hv' & _); try congruence.
  destruct Hv' as [m' Hv']. congruence.
Qed.

(** ** Every reachable page is consistent *)

Lemma initial_consistent storage : consistent (initial storage).
Proof. by split. Qed.

Lemma mount_consistent now w :
  consistent w -> mounted w = false -> consistent (mount now w).
Proof.
  intros Hc Hm. destruct (unmounted_initial w Hc Hm) as [Happ Hp].
  destruct w as [m a st pd rd]. simpl in *. subst.
  unfold mount, useApiKey_effect, rerender. simpl.
  destruct (st !! STORAGE_KEY) as [[key ts| |]|]; simpl;
    try (by split).
  destruct (now - ts <? SESSION_TIMEOUT_MS)%Z; [destruct key|];
    split; simpl; try done; intros; by split.
Qed.

Lemma handleSubmit_consistent key now w :
  consistent w -> mounted w = true ->
  renderContent (app w) = ApiKeyInput ->
  consistent (handleSubmit key now w).
Proof.
  intros Hc Hm Hv.
  destruct (consistent_step_view w API_KEY Hc Hv) as (Hp & Hl & He & Hs).
  pose proof (key_step w Hc Hm) as Hk.
  unfold handleSubmit, saveApiKey.
  destruct (trim key) as [|c k] eqn:Hkey; simpl; [done|].
  unfold rerender.
  destruct w as [m a st pd rd]. simpl in *. subst.
  case_decide as Hsame; simpl in *.
  - rewrite <- Hsame in Hk. simpl in Hk. destruct Hk as [_ Hk].
    by specialize (Hk Hs).
  - split; simpl; try done; intros; try congruence; by split.
Qed.

Lemma handleImageChange_consistent index file w :
  consistent w -> mounted w = true ->
  renderContent (app w) = UploadStep ->
  consistent (handleImageChange index file w).
Proof.
  intros Hc Hm Hv.
  destruct (consistent_step_view w UPLOAD Hc Hv) as (Hp & Hl & He & Hs).
  unfold handleImageChange. destruct file as [f|]; [|done].
  destruct Hc as [H1 H2 H3 H4 H5].
  destruct (startsWith (file_type f) (js "image/")); simpl;
    split; simpl; intros; try congruence; auto.
  simplify_eq. split; [done|]. by rewrite Hs.
Qed.

Lemma key_step_move (k : option (list N)) (old new : Step) :
  (truthy_opt k = false <-> old = API_KEY) ->
  old <> API_KEY -> new <> API_KEY ->
  (truthy_opt k = false <-> new = API_KEY).
Proof. naive_solver. Qed.

(** The fields of [consistent] for a page given by its parts. *)
Ltac consistent_fields :=
  split; simpl; intros; simplify_eq; try congruence; auto;
  repeat match goal with
    | |- _ /\ _ => split
    | |- exists m, Some ?x = Some m /\ _ => exists x
    end; simpl; try congruence; auto;
  try (eapply key_step_move; [eauto | congruence | done]).

Lemma handleIdentification_consistent w :
  consistent w -> mounted w = true ->
  renderContent (app w) = UploadStep ->
  consistent (handleIdentification w).
Proof.
  intros Hc Hm Hv.
  destruct (consistent_step_view w UPLOAD Hc Hv) as (Hp & Hl & He & Hs).
  unfold handleIdentification. destruct Hc as [H1 H2 H3 H4 H5].
  destruct (existsb isFile (imageFiles (app w))); simpl; consistent_fields.
Qed.

Lemma handleAnalysis_consistent w :
  consistent w -> mounted w = true ->
  renderContent (app w) = ConfirmStep ->
  consistent (handleAnalysis w).
Proof.
  intros Hc Hm Hv.
  destruct (consistent_step_view w CONFIRM Hc Hv) as (Hp & Hl & He & Hs).
  unfold handleAnalysis. destruct Hc as [H1 H2 H3 H4 H5].
  destruct (truthy (trim (plantName (app w)))); simpl; consistent_fields.
Qed.

Lemma handleGoalAdvice_consistent w :
  consistent w -> mounted w = true ->
  renderContent (app w) = GoalStep ->
  consistent (handleGoalAdvice w).
Proof.
  intros Hc Hm Hv.
  destruct (consistent_step_view w GOAL Hc Hv) as (Hp & Hl & He & Hs).
  unfold handleGoalAdvice. destruct Hc as [H1 H2 H3 H4 H5].
  destruct (truthy (trim (userGoal (app w)))); simpl; consistent_fields.
Qed.

Lemma onloadend_consistent k result w w' :
  consistent w -> mounted w = true ->
  onloadend k result w = Some w' -> consistent w'.
Proof.
  intros [H1 H2 H3 H4 H5] Hm Hs. unfold onloadend in Hs.
  destruct (readers w !! k); simplify_eq. consistent_fields.
Qed.

Lemma settle_consistent env w w' :
  consistent w -> mounted w = true ->
  settle env w = Some w' -> consistent w'.
Proof.
  intros [H1 H2 H3 H4 H5] Hm Hs. unfold settle in Hs.
  destruct (pending w) as [c|] eqn:Hp; simplify_eq.
  destruct (H3 c eq_refl) as ((m & Hl & Hmsg) & He & Hstep).
  assert (Hnokey : currentStep (app w) <> API_KEY)
    by (rewrite Hstep; by destruct c).
  unfold settled.
  destruct c, (call_result env _); consistent_fields.
Qed.

Lemma step_consistent w e w' :
  consistent w -> step w e = Some w' -> consistent w'.
Proof.
  intros Hc Hs. apply step_inv in Hs.
  destruct e.
  - destruct Hs as [Hm ->]. by apply mount_consistent.
  - destruct Hs as (Hm & Hv & ->). by apply handleSubmit_consistent.
  - destruct Hs as (Hm & Hv & _ & ->). by apply handleImageChange_consistent.
  - destruct Hs as (Hm & Hv & ->). by apply handleIdentification_consistent.
  - destruct Hs as (Hm & Hv & ->).
    destruct (consistent_step_view w CONFIRM Hc Hv) as (Hp & Hl & He & Hs).
    destruct Hc as [H1 H2 H3 H4 H5]. consistent_fields.
  - destruct Hs as (Hm & Hv & ->). by apply handleAnalysis_consistent.
  - destruct Hs as (Hm & Hv & ->).
    destruct (consistent_step_view w DIAGNOSE Hc Hv) as (Hp & Hl & He & Hs).
    destruct Hc as [H1 H2 H3 H4 H5]. consistent_fields.
  - destruct Hs as (Hm & Hv & ->).
    destruct (consistent_step_view w GOAL Hc Hv) as (Hp & Hl & He & Hs).
    destruct Hc as [H1 H2 H3 H4 H5]. consistent_fields.
  - destruct Hs as (Hm & Hv & ->). by apply handleGoalAdvice_consistent.
  - destruct Hs as (Hm & Hv & ->).
    destruct (consistent_step_view w GOAL Hc Hv) as (Hp & Hl & He & Hs).
    destruct Hc as [H1 H2 H3 H4 H5]. consistent_fields.
  - destruct Hs as (Hm & (m & Hv) & ->).
    destruct (consistent_error_view w m Hc Hv) as (Hp & Hl & He & Ht & Hs).
    destruct Hc as [H1 H2 H3 H4 H5]. consistent_fields.
  - destruct Hs as (Hm & Hs). by eapply onloadend_consistent.
  - destruct Hs as (Hm & Hs). by eapply settle_consistent.
Qed.

Lemma run_consistent events : forall w w',
  consistent w -> run w events = Some w' -> consistent w'.
Proof.
  induction events as [|e rest IH]; intros w w' Hc Hrun; simpl in Hrun.
  - by simplify_eq.
  - destruct (step w e) as [w1|] eqn:Hs; [|done].
    eapply IH; [|done]. by eapply step_consistent.
Qed.

Lemma reachable_consistent w : reachable w -> consistent w.
Proof.
  intros (storage & events & Hrun).
  eapply run_consistent; [apply initial_consistent|done].
Qed.

Lemma reachable_step w e w' :
  reachable w -> step w e = Some w' -> reachable w'.
Proof.
  intros (storage & events & Hrun) Hs.
  exists storage, (events ++ [e]).
  revert Hrun. generalize (initial storage).
  induction events as [|e0 rest IH]; intros w0 Hrun; simpl in *.
  - simplify_eq. by rewrite Hs.
  - destruct (step w0 e0); [by apply IH|done].
Qed.

(** ** The two image slots *)

Lemma step_two_slots w e w' :
  two_slots w -> step w e = Some w' -> two_slots w'.
Proof.
  intros (Hf & Hu & Hr) Hs. apply step_inv in Hs. unfold two_slots.
  destruct e.
  - destruct Hs as [_ ->].
    unfold mount, useApiKey_effect, rerender, App_effect.
    by repeat (case_match; simpl).
  - destruct Hs as (_ & _ & ->).
    unfold handleSubmit, saveApiKey, rerender, App_effect.
    by repeat (case_match; simpl).
  - destruct Hs as (_ & _ & Hi & ->). unfold handleImageChange.
    repeat case_match; simpl; rewrite ?length_insert; try done.
    repeat split; try done. apply Forall_app. split; [done|].
    apply Forall_singleton. by split.
  - destruct Hs as (_ & _ & ->). unfold handleIdentification.
    by repeat case_match.
  - by destruct Hs as (_ & _ & ->).
  - destruct Hs as (_ & _ & ->). unfold handleAnalysis.
    by repeat case_match.
  - by destruct Hs as (_ & _ & ->).
  - by destruct Hs as (_ & _ & ->).
  - destruct Hs as (_ & _ & ->). unfold handleGoalAdvice.
    by repeat case_match.
  - by destruct Hs as (_ & _ & ->).
  - by destruct Hs as (_ & _ & ->).
  - destruct Hs as (_ & Hs). unfold onloadend in Hs.
    destruct (readers w !! k) as [r|] eqn:Hk; simplify_eq. simpl.
    rewrite length_insert.
    pose proof (Forall_lookup_1 _ _ _ _ Hr Hk) as [_ Hlen].
    repeat split; try done. by apply Forall_delete.
  - destruct Hs as (_ & Hs). unfold settle in Hs.
    destruct (pending w) as [c|]; simplify_eq. unfold settled.
    by repeat case_match.
Qed.

Lemma reachable_two_slots w : reachable w -> two_slots w.
Proof.
  intros (storage & events & Hrun).
  assert (H0 : two_slots (initial storage)) by by repeat split.
  revert H0 Hrun. generalize (initial storage).
  induction events as [|e rest IH]; intros w0 H0 Hrun; simpl in Hrun.
  - by simplify_eq.
  - destruct (step w0 e) as [w1|] eqn:Hs; [|done].
    eapply IH; [|done]. by eapply step_two_slots.
Qed.

(** ** Loading message and error *)

(** C7.  On every page the program can reach, [loadingMessage] and
    [error] are not both set; so after every event that can happen
    there, whichever of the two is set, the other is [null]. *)
Theorem loading_and_error_exclusive w :
  reachable w ->
  ~ (loadingMessage (app w) <> None /\ error (app w) <> None)
  /\ forall e w', step w e = Some w' ->
       (loadingMessage (app w') <> None -> error (app w') = None)
       /\ (error (app w') <> None -> loadingMessage (app w') = None).
Proof.
  assert (Hexcl : forall w0, consistent w0 ->
            ~ (loadingMessage (app w0) <> None /\ error (app w0) <> None)).
  { intros w0 Hc [Hl He]. destruct (pending w0) as [c|] eqn:Hp.
    - by destruct (busy_loading w0 Hc c Hp) as (_ & Herr & _).
    - by apply Hl, idle_not_loading. }
  intros Hr. split; [by apply Hexcl, reachable_consistent|].
  intros e w' Hs.
  assert (Hc' : consistent w').
  { eapply step_consistent; [by apply reachable_consistent|done]. }
  specialize (Hexcl w' Hc').
  destruct (loadingMessage (app w')), (error (app w')); naive_solver.
Qed.

Lemma sample_pages_reachable :
  run (initial ∅) [Mount 0] = Some Sample.key_page
  /\ run (initial ∅) Sample.to_upload = Some Sample.upload_page
  /\ run (initial ∅) Sample.to_confirm = Some Sample.confirm_page
  /\ run (initial ∅) Sample.analysis_fails = Some Sample.failed_page
  /\ run (initial ∅) Sample.to_goal = Some Sample.goal_page.
Proof. repeat split; by vm_compute. Qed.

Lemma loading_and_error_exclusive_witness :
  reachable Sample.failed_page
  /\ error (app Sample.failed_page) = Some MSG_ANALYSIS_FAILED
  /\ ~ (loadingMessage (app Sample.failed_page) <> None
        /\ error (app Sample.failed_page) <> None).
Proof.
  assert (Hr : reachable Sample.failed_page).
  { exists ∅, Sample.analysis_fails. by vm_compute. }
  split; [exact Hr|]. split; [reflexivity|].
  exact (proj1 (loading_and_error_exclusive Sample.failed_page Hr)).
Defined.

(** ** The order of the steps *)

(** C3 as stated, "the step never moves backward except via the explicit
    reset", fails on the error view's button: after a failed analysis at
    CONFIRM, "Thử lại" is not the reset and takes the step back to
    UPLOAD. *)
Lemma retry_moves_step_backward :
  run (initial ∅) Sample.analysis_fails = Some Sample.failed_page
  /\ step Sample.failed_page Retry
     = Some (with_app ErrorView_onReset Sample.failed_page)
  /\ Retry <> StartOver
  /\ currentStep (app Sample.failed_page) = CONFIRM
  /\ currentStep (app (with_app ErrorView_onReset Sample.failed_page))
     = UPLOAD
  /\ ~ (step_rank CONFIRM <= step_rank UPLOAD).
Proof.
  split; [by vm_compute|]. split; [by vm_compute|].
  split; [discriminate|]. split; [reflexivity|]. split; [reflexivity|].
  simpl. lia.
Qed.

(** C3, amended.  Once the first effects have run, no event moves the
    step backward in the order API_KEY < UPLOAD < CONFIRM < DIAGNOSE <
    GOAL, except the explicit reset ("Bắt đầu lại") and the error view's
    button ("Thử lại"); those two both put the step at UPLOAD. *)
Theorem step_forward_except_reset_and_retry w e w' :
  reachable w -> step w e = Some w' ->
  ((forall now, e <> Mount now) -> e <> StartOver -> e <> Retry ->
   step_rank (currentStep (app w)) <= step_rank (currentStep (app w')))
  /\ (e = StartOver \/ e = Retry -> currentStep (app w') = UPLOAD).
Proof.
  intros Hr Hs. pose proof (reachable_consistent w Hr) as Hc.
  apply step_inv in Hs. split.
  - intros Hmount Hreset Hretry. destruct e; try done.
    + by destruct (Hmount now).
    + destruct Hs as (_ & Hv & ->).
      destruct (consistent_step_view w API_KEY Hc Hv) as (_ & _ & _ & ->).
      simpl. lia.
    + destruct Hs as (_ & _ & _ & ->). unfold handleImageChange.
      by repeat case_match.
    + destruct Hs as (_ & _ & ->). unfold handleIdentification.
      by repeat case_match.
    + by destruct Hs as (_ & _ & ->).
    + destruct Hs as (_ & _ & ->). unfold handleAnalysis.
      by repeat case_match.
    + destruct Hs as (_ & Hv & ->).
      destruct (consistent_step_view w DIAGNOSE Hc Hv) as (_ & _ & _ & ->).
      simpl. lia.
    + by destruct Hs as (_ & _ & ->).
    + destruct Hs as (_ & _ & ->). unfold handleGoalAdvice.
      by repeat case_match.
    + destruct Hs as (_ & Hs). unfold onloadend in Hs.
      destruct (readers w !! k); by simplify_eq.
    + destruct Hs as (_ & Hs). unfold settle in Hs.
      destruct (pending w) as [c|] eqn:Hp; simplify_eq.
      destruct (busy_loading w Hc c Hp) as (_ & _ & Hstep).
      unfold settled. simpl. rewrite Hstep.
      destruct c; destruct (call_result env _);
        simpl in *; rewrite ?Hstep; simpl; lia.
  - intros [->| ->].
    + by destruct Hs as (_ & _ & ->).
    + by destruct Hs as (_ & _ & ->).
Qed.

Lemma step_forward_except_reset_and_retry_witness :
  reachable Sample.analyzing_page
  /\ step Sample.analyzing_page (Settle (Sample.answering (js "### OK")))
     = Some (with_app (setCurrentStep DIAGNOSE) Sample.goal_page)
  /\ step_rank CONFIRM <= step_rank DIAGNOSE.
Proof.
  assert (Hr : reachable Sample.analyzing_page).
  { exists ∅, (Sample.to_confirm ++ [ConfirmNext]). by vm_compute. }
  assert (Hs : step Sample.analyzing_page
                 (Settle (Sample.answering (js "### OK")))
               = Some (with_app (setCurrentStep DIAGNOSE) Sample.goal_page))
    by by vm_compute.
  split; [exact Hr|]. split; [exact Hs|].
  refine (proj1 (step_forward_except_reset_and_retry _ _ _ Hr Hs) _ _ _);
    discriminate.
Defined.

(** ** The three calls *)

(** A handler that starts a call leaves the step as it is and shows a
    loading message. *)
Lemma call_started w e w1 c :
  consistent w ->
  e = UploadNext \/ e = ConfirmNext \/ e = AnalyzeGoal ->
  step w e = Some w1 -> pending w1 = Some c ->
  mounted w1 = true
  /\ truthy_opt (loadingMessage (app w1)) = true
  /\ currentStep (app w1) = currentStep (app w).
Proof.
  intros Hc He Hs Hp. apply step_inv in Hs.
  destruct He as [->|[->| ->]]; destruct Hs as (Hm & Hv & ->).
  - destruct (consistent_step_view w UPLOAD Hc Hv) as (Hp0 & _).
    unfold handleIdentification in *.
    destruct (existsb isFile (imageFiles (app w))); simpl in *;
      [done|congruence].
  - destruct (consistent_step_view w CONFIRM Hc Hv) as (Hp0 & _).
    unfold handleAnalysis in *.
    destruct (truthy (trim (plantName (app w)))); simpl in *;
      [done|congruence].
  - destruct (consistent_step_view w GOAL Hc Hv) as (Hp0 & _).
    unfold handleGoalAdvice in *.
    destruct (truthy (trim (userGoal (app w)))); simpl in *;
      [done|congruence].
Qed.

(** Until the call settles, nothing that happens touches the step, the
    loading message, the error or the call. *)
Lemma awaiting_run events : forall w1 w2 c,
  mounted w1 = true -> pending w1 = Some c ->
  truthy_opt (loadingMessage (app w1)) = true ->
  Forall (fun e => isSettle e = false) events ->
  run w1 events = Some w2 ->
  mounted w2 = true /\ pending w2 = Some c
  /\ currentStep (app w2) = currentStep (app w1)
  /\ loadingMessage (app w2) = loadingMessage (app w1)
  /\ error (app w2) = error (app w1).
Proof.
  induction events as [|e rest IH]; intros w1 w2 c Hm Hp Hl Hns Hrun;
    simpl in Hrun.
  - by simplify_eq.
  - destruct (step w1 e) as [w|] eqn:Hs; [|done].
    inversion Hns as [|? ? Hne Hrest]; subst.
    pose proof (loading_events w1 e w Hm Hl Hs) as Hkind.
    destruct e; try done. apply step_inv in Hs as (_ & Hs).
    unfold onloadend in Hs. destruct (readers w1 !! k); simplify_eq.
    by apply (IH _ w2 c) in Hrun.
Qed.

(** C1.  Take any of the three handlers that has started its call, and
    let anything happen until the call settles.  Then the loading
    message is cleared, whether the call succeeded or failed; and when
    the call failed, the step is the step from before the handler ran
    and [error] holds a non-empty message. *)
Theorem failed_call_keeps_step_and_sets_error
    w e w1 c events w2 env w3 :
  reachable w ->
  e = UploadNext \/ e = ConfirmNext \/ e = AnalyzeGoal ->
  step w e = Some w1 -> pending w1 = Some c ->
  Forall (fun e => isSettle e = false) events ->
  run w1 events = Some w2 ->
  step w2 (Settle env) = Some w3 ->
  loadingMessage (app w3) = None
  /\ (call_result env c = Rejected ->
      currentStep (app w3) = currentStep (app w)
      /\ exists m, error (app w3) = Some m /\ m <> []).
Proof.
  intros Hr He Hs Hp Hns Hrun Hsettle.
  pose proof (reachable_consistent w Hr) as Hc.
  destruct (call_started w e w1 c Hc He Hs Hp) as (Hm & Hl & Hstep).
  destruct (awaiting_run events w1 w2 c Hm Hp Hl Hns Hrun)
    as (Hm2 & Hp2 & Hstep2 & _ & _).
  apply step_inv in Hsettle as (_ & Hsettle).
  unfold settle in Hsettle. rewrite Hp2 in Hsettle. simplify_eq.
  split; [done|]. intros ->. simpl. rewrite <- Hstep, <- Hstep2.
  destruct c; simpl; (split; [done|]); eexists; (split; [done|]);
    by vm_compute.
Qed.

Lemma failed_call_keeps_step_and_sets_error_witness :
  reachable Sample.confirm_page
  /\ step Sample.confirm_page ConfirmNext = Some Sample.analyzing_page
  /\ run Sample.analyzing_page [ReaderLoadEnd 0 (Some Sample.preview)]
     = Some Sample.analyzing_page_with_preview
  /\ step Sample.analyzing_page_with_preview (Settle Sample.failing)
     = Some Sample.failed_page_with_preview
  /\ loadingMessage (app Sample.failed_page_with_preview) = None
  /\ currentStep (app Sample.failed_page_with_preview)
     = currentStep (app Sample.confirm_page)
  /\ exists m, error (app Sample.failed_page_with_preview) = Some m
               /\ m <> [].
Proof.
  assert (Hr : reachable Sample.confirm_page).
  { exists ∅, Sample.to_confirm. by vm_compute. }
  assert (Hs : step Sample.confirm_page ConfirmNext
               = Some Sample.analyzing_page) by by vm_compute.
  assert (Hrun : run Sample.analyzing_page
                   [ReaderLoadEnd 0 (Some Sample.preview)]
                 = Some Sample.analyzing_page_with_preview)
    by by vm_compute.
  assert (Hsettle : step Sample.analyzing_page_with_preview
                      (Settle Sample.failing)
                    = Some Sample.failed_page_with_preview)
    by by vm_compute.
  assert (Hns : Forall (fun e => isSettle e = false)
                  [ReaderLoadEnd 0 (Some Sample.preview)])
    by by repeat constructor.
  destruct (failed_call_keeps_step_and_sets_error
              Sample.confirm_page ConfirmNext Sample.analyzing_page
              _ _ _ Sample.failing _
              Hr (or_intror (or_introl eq_refl)) Hs eq_refl Hns Hrun
              Hsettle) as [Hl Hrejected].
  destruct (Hrejected eq_refl) as [Hstep Herr].
  by repeat split.
Defined.

(** ** Missing input *)

(** C6.  "Next" at UPLOAD with no image picked, and at CONFIRM with a
    plant name that is empty once trimmed: the handler only sets
    [error], to the message for the missing input; the step is
    unchanged and no call is started. *)
Theorem next_without_input_sets_error w w' :
  reachable w ->
  (Forall (fun f => f = None) (imageFiles (app w)) ->
   step w UploadNext = Some w' ->
   w' = with_app (setError (Some MSG_NO_IMAGE)) w
   /\ currentStep (app w') = UPLOAD
   /\ currentStep (app w') = currentStep (app w)
   /\ pending w' = None
   /\ error (app w') = Some MSG_NO_IMAGE)
  /\ (trim (plantName (app w)) = [] ->
      step w ConfirmNext = Some w' ->
      w' = with_app (setError (Some MSG_EMPTY_NAME)) w
      /\ currentStep (app w') = CONFIRM
      /\ currentStep (app w') = currentStep (app w)
      /\ pending w' = None
      /\ error (app w') = Some MSG_EMPTY_NAME).
Proof.
  intros Hr. pose proof (reachable_consistent w Hr) as Hc. split.
  - intros Hnone Hs. apply step_inv in Hs as (_ & Hv & ->).
    destruct (consistent_step_view w UPLOAD Hc Hv) as (Hp & _ & _ & Hstep).
    unfold handleIdentification.
    assert (Hex : existsb isFile (imageFiles (app w)) = false).
    { induction Hnone as [|f fs -> _ IH]; [done|]. simpl. exact IH. }
    rewrite Hex. simpl. by rewrite Hstep.
  - intros Hempty Hs. apply step_inv in Hs as (_ & Hv & ->).
    destruct (consistent_step_view w CONFIRM Hc Hv) as (Hp & _ & _ & Hstep).
    unfold handleAnalysis. rewrite Hempty. simpl. by rewrite Hstep.
Qed.

Lemma next_without_input_sets_error_witness :
  (reachable Sample.upload_page
   /\ imageFiles (app Sample.upload_page) = [None; None]
   /\ step Sample.upload_page UploadNext
      = Some (with_app (setError (Some MSG_NO_IMAGE)) Sample.upload_page)
   /\ currentStep
        (app (with_app (setError (Some MSG_NO_IMAGE)) Sample.upload_page))
      = UPLOAD)
  /\ (reachable (with_app (setPlantName (js "  ")) Sample.confirm_page)
      /\ trim (js "  ") = []
      /\ step (with_app (setPlantName (js "  ")) Sample.confirm_page)
           ConfirmNext
         = Some (with_app (setError (Some MSG_EMPTY_NAME))
                   (with_app (setPlantName (js "  ")) Sample.confirm_page))
      /\ currentStep
           (app (with_app (setError (Some MSG_EMPTY_NAME))
                   (with_app (setPlantName (js "  ")) Sample.confirm_page)))
         = CONFIRM).
Proof.
  assert (Hr1 : reachable Sample.upload_page).
  { exists ∅, Sample.to_upload. by vm_compute. }
  assert (Hs1 : step Sample.upload_page UploadNext
                = Some (with_app (setError (Some MSG_NO_IMAGE))
                          Sample.upload_page)) by by vm_compute.
  assert (Hnone : Forall (fun f : option File => f = None)
                    (imageFiles (app Sample.upload_page)))
    by by repeat constructor.
  assert (Hr2 : reachable
                  (with_app (setPlantName (js "  ")) Sample.confirm_page)).
  { exists ∅, (Sample.to_confirm ++ [PlantNameChange (js "  ")]).
    by vm_compute. }
  assert (Hs2 : step (with_app (setPlantName (js "  ")) Sample.confirm_page)
                  ConfirmNext
                = Some (with_app (setError (Some MSG_EMPTY_NAME))
                          (with_app (setPlantName (js "  "))
                             Sample.confirm_page))) by by vm_compute.
  assert (Hempty : trim (js "  ") = []) by reflexivity.
  destruct (proj1 (next_without_input_sets_error _ _ Hr1) Hnone Hs1)
    as (_ & Hu & _).
  destruct (proj2 (next_without_input_sets_error _ _ Hr2) Hempty Hs2)
    as (_ & Hcf & _).
  by repeat split.
Defined.

(** ** The session key store *)

(** C2.  With a record {key, timestamp} stored, the effect that loads
    the key at time [now] puts the stored key in [apiKey] and keeps the
    record when [now - timestamp] is under 30 minutes; otherwise it
    leaves [apiKey] [null] and removes the record from the storage. *)
Theorem load_key_within_30_minutes storage key timestamp now :
  storage !! STORAGE_KEY = Some (CredentialJSON key timestamp) ->
  exists w, step (initial storage) (Mount now) = Some w
    /\ ((now - timestamp < 30 * 60 * 1000)%Z ->
        apiKey (app w) = Some key /\ sessionStorage w = storage)
    /\ ((30 * 60 * 1000 <= now - timestamp)%Z ->
        apiKey (app w) = None
        /\ sessionStorage w = delete STORAGE_KEY storage
        /\ sessionStorage w !! STORAGE_KEY = None).
Proof.
  intros Hstored. eexists. split; [reflexivity|].
  unfold mount, useApiKey_effect, rerender. simpl. rewrite Hstored.
  change SESSION_TIMEOUT_MS with (30 * 60 * 1000)%Z.
  destruct (Z.ltb_spec (now - timestamp) (30 * 60 * 1000)) as [Hlt|Hge];
    simpl; (split; [intros ?|intros ?]); try lia.
  - split; [by destruct key|done].
  - repeat split. apply lookup_delete_eq.
Qed.

Lemma load_key_within_30_minutes_witness :
  (exists w,
      step (initial (sessionStorage Sample.upload_page))
        (Mount (Sample.minutes 29)) = Some w
      /\ apiKey (app w) = Some (js "X"))
  /\ (exists w,
      step (initial (sessionStorage Sample.upload_page))
        (Mount (Sample.minutes 31)) = Some w
      /\ apiKey (app w) = None
      /\ sessionStorage w !! STORAGE_KEY = None).
Proof.
  assert (Hstored : sessionStorage Sample.upload_page !! STORAGE_KEY
                    = Some (CredentialJSON (js "X") 0)).
  { apply lookup_insert_eq. }
  split.
  - destruct (load_key_within_30_minutes _ _ _ (Sample.minutes 29) Hstored)
      as (w & Hs & Hfresh & _).
    exists w. split; [exact Hs|]. apply Hfresh. by vm_compute.
  - destruct (load_key_within_30_minutes _ _ _ (Sample.minutes 31) Hstored)
      as (w & Hs & _ & Hold).
    exists w. split; [exact Hs|].
    destruct Hold as (Hk & _ & Hgone); [by vm_compute|]. by split.
Defined.

(** C9 as stated, "a blank key fails with an error surfaced to the
    user", fails: submitting white space on the key form changes nothing, so
    [error] stays [null] and the key form stays on screen as it was. *)
Lemma blank_key_surfaces_no_error :
  run (initial ∅) [Mount 0] = Some Sample.key_page
  /\ trim (js "  ") = []
  /\ step Sample.key_page (SubmitKey (js "  ") 0) = Some Sample.key_page
  /\ error (app Sample.key_page) = None
  /\ renderContent (app Sample.key_page) = ApiKeyInput.
Proof. repeat split; by vm_compute. Qed.

(** C9, amended.  Submitting a key whose trimmed value is empty is
    ignored without any error: the page, with the stored record and all
    workflow state, is exactly as before.  Submitting a key whose
    trimmed value is not empty stores the record {key: trimmed value,
    timestamp: now}, holds the trimmed value in [apiKey] and moves to
    UPLOAD. *)
Theorem submit_key_blank_ignored_else_stored w key now w' :
  reachable w -> step w (SubmitKey key now) = Some w' ->
  (trim key = [] -> w' = w)
  /\ (trim key <> [] ->
      sessionStorage w'
      = <[STORAGE_KEY := CredentialJSON (trim key) now]> (sessionStorage w)
      /\ sessionStorage w' !! STORAGE_KEY
         = Some (CredentialJSON (trim key) now)
      /\ apiKey (app w') = Some (trim key)
      /\ currentStep (app w') = UPLOAD
      /\ error (app w') = None).
Proof.
  intros Hr Hs. pose proof (reachable_consistent w Hr) as Hc.
  apply step_inv in Hs as (Hm & Hv & ->).
  destruct (consistent_step_view w API_KEY Hc Hv) as (_ & _ & He & Hstep).
  pose proof (key_step w Hc Hm) as Hk.
  unfold handleSubmit, saveApiKey, rerender.
  destruct (trim key) as [|c k]; simpl; [by split|].
  split; [done|]. intros _.
  case_decide as Hsame; simpl in *.
  - rewrite <- Hsame in Hk. simpl in Hk. destruct Hk as [_ Hk].
    by specialize (Hk Hstep).
  - repeat split; try done. apply lookup_insert_eq.
Qed.

Lemma submit_key_blank_ignored_else_stored_witness :
  reachable Sample.key_page
  /\ step Sample.key_page (SubmitKey (js " X ") 0) = Some Sample.upload_page
  /\ sessionStorage Sample.upload_page !! STORAGE_KEY
     = Some (CredentialJSON (js "X") 0)
  /\ apiKey (app Sample.upload_page) = Some (js "X")
  /\ currentStep (app Sample.upload_page) = UPLOAD.
Proof.
  assert (Hr : reachable Sample.key_page).
  { exists ∅, [Mount 0]. by vm_compute. }
  assert (Hs : step Sample.key_page (SubmitKey (js " X ") 0)
               = Some Sample.upload_page) by by vm_compute.
  assert (Hne : trim (js " X ") <> []) by by vm_compute.
  destruct (proj2 (submit_key_blank_ignored_else_stored _ _ _ _ Hr Hs) Hne)
    as (_ & Hstored & Hkey & Hstep & _).
  by repeat split.
Defined.

(** ** Reset and error recovery *)

(** C4 as stated, "reset sets the step to API_KEY when no valid
    credential is present", fails: on a page that holds no key in memory or in the
    storage, and on the reachable goal page 31 minutes after its key was
    stored, "Bắt đầu lại" sets the step to UPLOAD. *)
Lemma reset_without_credential_goes_to_upload :
  (apiKey (app (with_app (setCurrentStep GOAL) Sample.key_page)) = None
   /\ sessionStorage (with_app (setCurrentStep GOAL) Sample.key_page)
        !! STORAGE_KEY = None
   /\ step (with_app (setCurrentStep GOAL) Sample.key_page) StartOver
      = Some (with_app (setCurrentStep UPLOAD) Sample.key_page))
  /\ (run (initial ∅) Sample.to_goal = Some Sample.goal_page
      /\ sessionStorage Sample.goal_page !! STORAGE_KEY
         = Some (CredentialJSON (js "X") 0)
      /\ ~ (Sample.minutes 31 - 0 < SESSION_TIMEOUT_MS)%Z
      /\ step Sample.goal_page StartOver
         = Some (with_app resetWorkflow Sample.goal_page)
      /\ currentStep (app (with_app resetWorkflow Sample.goal_page))
         = UPLOAD)
  /\ UPLOAD <> API_KEY.
Proof.
  split; [repeat split; by vm_compute|].
  split; [|discriminate].
  split; [by vm_compute|]. split; [by vm_compute|].
  split; [by vm_compute|]. split; [by vm_compute|]. reflexivity.
Qed.

(** C4, amended.  From any workflow state, the explicit reset sets the
    files and previews, the plant name, the health analysis, the user
    goal, the goal advice, the loading message and the error to their
    initial empty values and sets the step to UPLOAD.  It never sets
    API_KEY: it leaves the key in memory and the session storage as
    they are, whether or not a valid credential is present. *)
Theorem resetWorkflow_clears_fields_and_goes_to_upload (w : World) :
  let s := app w in
  let w' := with_app resetWorkflow w in
  app w' = resetWorkflow s
  /\ resetWorkflow s = setApiKey (apiKey s) initial_state
  /\ imageFiles (resetWorkflow s) = [None; None]
  /\ imageDataUrls (resetWorkflow s) = [None; None]
  /\ plantName (resetWorkflow s) = []
  /\ healthAnalysis (resetWorkflow s) = []
  /\ userGoal (resetWorkflow s) = []
  /\ goalAnalysis (resetWorkflow s) = []
  /\ loadingMessage (resetWorkflow s) = None
  /\ error (resetWorkflow s) = None
  /\ currentStep (resetWorkflow s) = UPLOAD
  /\ apiKey (resetWorkflow s) = apiKey s
  /\ sessionStorage w' = sessionStorage w.
Proof. by repeat split. Qed.

(** Where the reset is on screen a key is held. *)
Lemma reset_only_with_key w w' :
  reachable w -> step w StartOver = Some w' ->
  truthy_opt (apiKey (app w')) = true /\ currentStep (app w') = UPLOAD.
Proof.
  intros Hr Hs. pose proof (reachable_consistent w Hr) as Hc.
  apply step_inv in Hs as (Hm & Hv & ->).
  destruct (consistent_step_view w GOAL Hc Hv) as (_ & _ & _ & Hstep).
  destruct (key_step w Hc Hm) as [Hk _]. simpl. split; [|done].
  destruct (truthy_opt (apiKey (app w))); [done|].
  rewrite Hstep in Hk. by specialize (Hk eq_refl).
Qed.

(** C10.  The button of the error view clears [error] and sets the
    step to UPLOAD, and changes nothing else: the files, the previews,
    the plant name, the health analysis, the user goal and the goal
    advice keep their values, as do the key, the loading message, the
    session storage and what is being read or awaited. *)
Theorem error_recovery_keeps_data w w' :
  step w Retry = Some w' ->
  error (app w') = None
  /\ currentStep (app w') = UPLOAD
  /\ imageFiles (app w') = imageFiles (app w)
  /\ imageDataUrls (app w') = imageDataUrls (app w)
  /\ plantName (app w') = plantName (app w)
  /\ healthAnalysis (app w') = healthAnalysis (app w)
  /\ userGoal (app w') = userGoal (app w)
  /\ goalAnalysis (app w') = goalAnalysis (app w)
  /\ apiKey (app w') = apiKey (app w)
  /\ loadingMessage (app w') = loadingMessage (app w)
  /\ sessionStorage w' = sessionStorage w
  /\ pending w' = pending w
  /\ readers w' = readers w.
Proof.
  intros Hs. apply step_inv in Hs as (_ & _ & ->). by repeat split.
Qed.

Lemma error_recovery_keeps_data_witness :
  step Sample.failed_page Retry
  = Some (with_app ErrorView_onReset Sample.failed_page)
  /\ error (app (with_app ErrorView_onReset Sample.failed_page)) = None
  /\ currentStep (app (with_app ErrorView_onReset Sample.failed_page))
     = UPLOAD
  /\ plantName (app (with_app ErrorView_onReset Sample.failed_page))
     = js "Hoa hồng"
  /\ imageFiles (app (with_app ErrorView_onReset Sample.failed_page))
     = [Some Sample.photo; None].
Proof.
  assert (Hs : step Sample.failed_page Retry
               = Some (with_app ErrorView_onReset Sample.failed_page))
    by by vm_compute.
  destruct (error_recovery_keeps_data _ _ Hs)
    as (He & Hstep & Hfiles & _ & Hname & _).
  split; [exact Hs|]. split; [exact He|]. split; [exact Hstep|].
  split; [by rewrite Hname|by rewrite Hfiles].
Defined.

End AppFacts.

(* ===================================================================== *)
(** * More on strings: [trim] *)
(* ===================================================================== *)

Module TrimFacts.
Import JS.

Lemma trimStart_nil_iff s : trimStart s = [] <-> forallb isTrimmed s = true.
Proof.
  induction s as [|c r IH]; simpl; [done|].
  destruct (isTrimmed c); simpl; [done|]. split; discriminate.
Qed.

Lemma trimStart_head s c r : trimStart s = c :: r -> isTrimmed c = false.
Proof.
  induction s as [|d s IH]; simpl; [done|].
  destruct (isTrimmed d) eqn:Hd; [done|]. by intros [= <- _].
Qed.

Lemma trimStart_snoc s c :
  isTrimmed c = false -> trimStart (s ++ [c]) = trimStart s ++ [c].
Proof.
  intros Hc. induction s as [|d s IH]; simpl; [by rewrite Hc|].
  by destruct (isTrimmed d).
Qed.

(** What [trim] leaves when something is left: the first code unit that
    is not white space, then the rest without its trailing white space. *)
Lemma trim_cons s c r :
  trimStart s = c :: r -> trim s = c :: rev (trimStart (rev r)).
Proof.
  intros Hs. unfold trim, trimEnd. rewrite Hs. simpl.
  rewrite trimStart_snoc by by eapply trimStart_head.
  by rewrite rev_app_distr.
Qed.

Lemma trim_nil_iff s : trim s = [] <-> forallb isTrimmed s = true.
Proof.
  rewrite <- trimStart_nil_iff.
  destruct (trimStart s) as [|c r] eqn:Hs.
  - unfold trim, trimEnd. by rewrite Hs.
  - by rewrite (trim_cons s c r Hs).
Qed.

Lemma trim_head s c : head (trim s) = Some c -> isTrimmed c = false.
Proof.
  destruct (trimStart s) as [|d r] eqn:Hs.
  - unfold trim, trimEnd. by rewrite Hs.
  - rewrite (trim_cons s d r Hs). intros [= <-]. by eapply trimStart_head.
Qed.

Lemma trim_last s c : last (trim s) = Some c -> isTrimmed c = false.
Proof.
  destruct (trimStart s) as [|d r] eqn:Hs.
  - unfold trim, trimEnd. by rewrite Hs.
  - rewrite (trim_cons s d r Hs).
    destruct (trimStart (rev r)) as [|e u] eqn:Hr; simpl.
    + intros [= <-]. by eapply trimStart_head.
    + rewrite last_cons, last_snoc. intros [= <-].
      by eapply trimStart_head.
Qed.

End TrimFacts.

(* ===================================================================== *)
(** * More on the markdown renderer *)
(* ===================================================================== *)

Module ShapeFacts.
Import JS Markdown Shape TrimFacts.

(** ** One line *)

Lemma startsWith_cons c s p ps :
  startsWith (c :: s) (p :: ps) = (c =? p)%N && startsWith s ps.
Proof. reflexivity. Qed.

Lemma startsWith_nil s : startsWith s [] = true.
Proof. by destruct s. Qed.

Lemma renderLine_item line :
  startsWith line (js "* ") = true ->
  renderLine line = Some (li (substring 2 (replace_bold 0 line))).
Proof.
  intros Hitem. unfold renderLine. rewrite Hitem.
  destruct line as [|c r]; [done|].
  change (js "* ") with [42; 32]%N in Hitem.
  rewrite startsWith_cons in Hitem.
  apply andb_true_iff in Hitem as [Hc _]. apply N.eqb_eq in Hc. by subst.
Qed.

Lemma renderLine_not_item line :
  startsWith line (js "* ") = false -> is_li (renderLine line) = false.
Proof.
  intros Hitem. unfold renderLine. rewrite Hitem. by repeat case_match.
Qed.

Lemma renderLine_not_ul line : is_ul (renderLine line) = false.
Proof. unfold renderLine. by repeat case_match. Qed.

(** X3.  A line renders nothing exactly when it holds only white space
    (or is empty); every other line gives an element. *)
Theorem renderLine_null_iff_blank line :
  renderLine line = None <-> forallb isTrimmed line = true.
Proof.
  rewrite <- trim_nil_iff. split.
  - unfold renderLine. repeat case_match; try done.
    by destruct (trim line).
  - intros Htrim. pose proof Htrim as Hblank.
    apply trim_nil_iff in Hblank. unfold renderLine. rewrite Htrim.
    destruct line as [|c r]; [done|].
    simpl in Hblank. apply andb_true_iff in Hblank as [Hc _].
    change (js "### ") with [35; 35; 35; 32]%N.
    change (js "## ") with [35; 35; 32]%N.
    change (js "# ") with [35; 32]%N.
    change (js "* ") with [42; 32]%N.
    rewrite !startsWith_cons.
    destruct (N.eqb_spec c 35) as [->|_]; [done|].
    destruct (N.eqb_spec c 42) as [->|_]; [done|]. done.
Qed.

(** ** Bold text *)

Lemma replace_bold_other c r :
  c <> STAR -> replace_bold 0 (c :: r) = c :: replace_bold 0 r.
Proof.
  intros Hc. simpl. unfold match_bold. rewrite startsWith_cons.
  destruct (N.eqb_spec c STAR) as [?|_]; [done|]. reflexivity.
Qed.

Lemma replace_bold_lone_star r :
  match r with d :: _ => (d =? STAR)%N | [] => false end = false ->
  replace_bold 0 (STAR :: r) = STAR :: replace_bold 0 r.
Proof.
  intros Hr. cbn [replace_bold]. unfold match_bold.
  destruct r as [|d r]; [done|].
  rewrite !startsWith_cons, Hr. reflexivity.
Qed.

(** X5.  Text in which no two stars stand together goes through the
    bold replacement unchanged, whatever else it holds: nothing is
    escaped or removed. *)
Theorem replace_bold_without_double_star s :
  has_double_star s = false -> replace_bold 0 s = s.
Proof.
  induction s as [|c r IH]; [done|]. cbn [has_double_star].
  intros Hs. apply orb_false_iff in Hs as [Hhead Hrest].
  destruct (N.eqb_spec c STAR) as [->|Hc].
  - rewrite replace_bold_lone_star by done. by rewrite IH.
  - rewrite replace_bold_other by done. by rewrite IH.
Qed.

Lemma replace_bold_without_double_star_witness :
  has_double_star (js "<img src=x onerror=alert(1)> 2 * 3") = false
  /\ replace_bold 0 (js "<img src=x onerror=alert(1)> 2 * 3")
     = js "<img src=x onerror=alert(1)> 2 * 3".
Proof.
  assert (H : has_double_star (js "<img src=x onerror=alert(1)> 2 * 3")
              = false) by reflexivity.
  split; [exact H|].
  exact (replace_bold_without_double_star _ H).
Defined.

Lemma replace_bold_skip l : forall n r,
  length l = n -> replace_bold n (l ++ r) = replace_bold 0 r.
Proof.
  induction l as [|c l IH]; intros n r Hn; simpl in *; subst; [done|].
  by apply IH.
Qed.

Lemma replace_bold_plain pre s :
  forallb (fun c => negb (c =? STAR)%N) pre = true ->
  replace_bold 0 (pre ++ s) = pre ++ replace_bold 0 s.
Proof.
  induction pre as [|c pre IH]; [done|]. cbn [forallb app].
  intros Hpre. apply andb_true_iff in Hpre as [Hc Hpre].
  rewrite replace_bold_other; [by rewrite IH|].
  intros ->. done.
Qed.

Lemma lazy_capture_found x post :
  forallb (fun c => negb (c =? STAR)%N && negb (isLineTerminator c)) x
  = true ->
  lazy_capture (x ++ STAR :: STAR :: post) = Some x.
Proof.
  induction x as [|c x IH].
  { intros _. cbn [app lazy_capture].
    by rewrite !startsWith_cons, startsWith_nil, N.eqb_refl. }
  cbn [forallb app].
  intros Hx. apply andb_true_iff in Hx as [Hc Hx].
  apply andb_true_iff in Hc as [Hstar Hlt].
  cbn [lazy_capture]. rewrite startsWith_cons.
  apply negb_true_iff in Hstar, Hlt. rewrite Hstar, Hlt. cbn [andb].
  by rewrite (IH Hx).
Qed.

Lemma match_bold_found x post :
  forallb (fun c => negb (c =? STAR)%N && negb (isLineTerminator c)) x
  = true ->
  match_bold (STAR :: STAR :: x ++ STAR :: STAR :: post) = Some x.
Proof.
  intros Hx. unfold match_bold.
  rewrite !startsWith_cons, startsWith_nil, N.eqb_refl.
  cbn [andb drop]. by apply lazy_capture_found.
Qed.

Lemma replace_bold_match c r cap :
  match_bold (c :: r) = Some cap ->
  replace_bold 0 (c :: r)
  = js "<strong>" ++ cap ++ js "</strong>"
    ++ replace_bold (length cap + 3) r.
Proof. intros H. cbn [replace_bold]. by rewrite H. Qed.

(** X6.  A run of text between two pairs of stars, with no star and no
    line terminator in it, is wrapped in a [strong] element and the stars
    are dropped; star-free text before it is kept, and the replacement
    goes on after the closing stars. *)
Theorem replace_bold_wraps_strong pre x post :
  forallb (fun c => negb (c =? STAR)%N) pre = true ->
  forallb (fun c => negb (c =? STAR)%N && negb (isLineTerminator c)) x
  = true ->
  replace_bold 0 (pre ++ [STAR; STAR] ++ x ++ [STAR; STAR] ++ post)
  = pre ++ js "<strong>" ++ x ++ js "</strong>" ++ replace_bold 0 post.
Proof.
  intros Hpre Hx. rewrite (replace_bold_plain pre _ Hpre). f_equal.
  cbn [app].
  rewrite (replace_bold_match _ _ x (match_bold_found x post Hx)).
  do 3 f_equal.
  replace (STAR :: x ++ STAR :: STAR :: post)
    with ((STAR :: x ++ [STAR; STAR]) ++ post)
    by (cbn [app]; by rewrite <- app_assoc).
  apply replace_bold_skip. cbn [length]. rewrite length_app. simpl. lia.
Qed.

Lemma replace_bold_wraps_strong_witness :
  replace_bold 0 (js "- **Loại cây:** Hoa hồng")
  = js "- <strong>Loại cây:</strong> Hoa hồng".
Proof.
  assert (Hpre : forallb (fun c => negb (c =? STAR)%N) (js "- ") = true)
    by reflexivity.
  assert (Hx : forallb (fun c => negb (c =? STAR)%N
                                 && negb (isLineTerminator c))
                 (js "Loại cây:") = true) by reflexivity.
  exact (replace_bold_wraps_strong (js "- ") (js "Loại cây:")
           (js " Hoa hồng") Hpre Hx).
Defined.

(** ** Headings, items and paragraphs *)

(** X4.  On a line that opens with "### ", "## ", "# " or "* " the
    marker is dropped and the rest of the line, with its bold text
    replaced, is the content of the [h3], [h2], [h1] or [li]. *)
Theorem renderLine_drops_marker (t : list N) :
  renderLine (js "### " ++ t) = Some (h3 (replace_bold 0 t))
  /\ renderLine (js "## " ++ t) = Some (h2 (replace_bold 0 t))
  /\ renderLine (js "# " ++ t) = Some (h1 (replace_bold 0 t))
  /\ renderLine (js "* " ++ t) = Some (li (replace_bold 0 t)).
Proof.
  change (js "### ") with [35; 35; 35; 32]%N.
  change (js "## ") with [35; 35; 32]%N.
  change (js "# ") with [35; 32]%N.
  change (js "* ") with [42; 32]%N.
  unfold renderLine.
  change (js "### ") with [35; 35; 35; 32]%N.
  change (js "## ") with [35; 35; 32]%N.
  change (js "# ") with [35; 32]%N.
  change (js "* ") with [42; 32]%N.
  cbn [app]. rewrite !startsWith_cons, !startsWith_nil. cbn [N.eqb andb].
  repeat split.
Qed.

(** X7.  A line that is not blank and opens with anything but a hash or
    a star (an indented bullet or heading, for one) is a paragraph of the
    whole line, leading white space and marker included, with its bold
    text replaced. *)
Theorem renderLine_paragraph c r :
  c <> 35%N -> c <> STAR -> forallb isTrimmed (c :: r) = false ->
  renderLine (c :: r) = Some (p (replace_bold 0 (c :: r))).
Proof.
  intros Hhash Hstar Hblank. unfold renderLine.
  change (js "### ") with [35; 35; 35; 32]%N.
  change (js "## ") with [35; 35; 32]%N.
  change (js "# ") with [35; 32]%N.
  change (js "* ") with [42; 32]%N.
  rewrite !startsWith_cons.
  destruct (N.eqb_spec c 35) as [?|_]; [done|].
  destruct (N.eqb_spec c 42) as [?|_]; [done|]. cbn [andb].
  destruct (trim (c :: r)) as [|d u] eqn:Htrim; [|done].
  apply trim_nil_iff in Htrim. congruence.
Qed.

Lemma renderLine_paragraph_witness :
  renderLine (js "  * **a**") = Some (p (js "  * <strong>a</strong>")).
Proof.
  refine (renderLine_paragraph 32%N (js " * **a**") _ _ _); by vm_compute.
Defined.

(** ** The loop over the lines *)

Lemma adjacent_lists_snoc els x :
  adjacent_lists (els ++ [x])
  = adjacent_lists els || (from_option is_ul false (last els) && is_ul x).
Proof.
  induction els as [|e1 [|e2 rest] IH].
  - simpl. by destruct (is_ul x).
  - simpl. by destruct (is_ul e1), (is_ul x).
  - change (adjacent_lists ((e1 :: e2 :: rest) ++ [x]))
      with ((is_ul e1 && is_ul e2) || adjacent_lists ((e2 :: rest) ++ [x])).
    rewrite IH. change (adjacent_lists (e1 :: e2 :: rest))
      with ((is_ul e1 && is_ul e2) || adjacent_lists (e2 :: rest)).
    rewrite last_cons_cons. by rewrite orb_assoc.
Qed.

Lemma flatten_snoc els x :
  flatten (els ++ [x])
  = flatten els ++ match x with Some (ul children) => children | _ => [x] end.
Proof.
  unfold flatten. rewrite bind_app. simpl. by rewrite app_nil_r.
Qed.

Lemma items_toArray children :
  forallb is_li children = true -> Children_toArray children = children.
Proof.
  intros Hli. unfold Children_toArray.
  induction children as [|c children IH]; [done|].
  simpl in Hli. apply andb_true_iff in Hli as [Hc Hli].
  rewrite filter_cons_True by by destruct c as [[]|].
  by rewrite IH.
Qed.

(** One turn of the loop keeps the loop invariant and adds the rendering
    of its line to the flattened elements. *)
Lemma loop_body_invariant st line :
  loop_invariant st ->
  loop_invariant (loop_body st line)
  /\ flatten (loop_body st line).1 = flatten st.1 ++ [renderLine line].
Proof.
  destruct st as [els inList]. intros (Hwf & Hadj & Hlast). simpl in *.
  unfold loop_body.
  destruct (startsWith line (js "* ")) eqn:Hitem; simpl.
  - rewrite (renderLine_item line Hitem).
    destruct inList; simpl.
    + destruct els as [|e els _] using rev_ind; [done|].
      rewrite last_snoc in Hlast |- *. simpl in Hlast.
      destruct e as [[| | | | |children]|]; try done.
      apply Forall_app in Hwf as [Hwf Hul].
      apply Forall_singleton in Hul as [Hne Hli].
      rewrite adjacent_lists_snoc in Hadj.
      rewrite (items_toArray children Hli).
      rewrite length_app. simpl.
      replace (length els + 1 - 1) with (length els + 0) by lia.
      rewrite insert_app_r. simpl.
      unfold loop_invariant; cbn [fst snd]; split; [split; [|split]|].
      * apply Forall_app. split; [done|]. apply Forall_singleton.
        split; [by destruct children|].
        rewrite forallb_app, Hli. reflexivity.
      * by rewrite adjacent_lists_snoc.
      * by rewrite last_snoc.
      * by rewrite !flatten_snoc, <- app_assoc.
    + unfold loop_invariant; cbn [fst snd]; split; [split; [|split]|].
      * apply Forall_app. split; [done|]. by apply Forall_singleton.
      * rewrite adjacent_lists_snoc, Hadj, <- Hlast. reflexivity.
      * by rewrite last_snoc.
      * by rewrite flatten_snoc.
  - pose proof (renderLine_not_ul line) as Hul.
    pose proof (renderLine_not_item line Hitem) as Hli.
    unfold loop_invariant; cbn [fst snd]; split; [split; [|split]|].
    + apply Forall_app. split; [done|]. apply Forall_singleton.
      by destruct (renderLine line) as [[]|].
    + by rewrite adjacent_lists_snoc, Hadj, Hul, andb_false_r.
    + by rewrite last_snoc.
    + rewrite flatten_snoc. by destruct (renderLine line) as [[]|].
Qed.

Lemma fold_loop_invariant lines : forall st,
  loop_invariant st ->
  loop_invariant (fold_left loop_body lines st)
  /\ flatten (fold_left loop_body lines st).1
     = flatten st.1 ++ map renderLine lines.
Proof.
  induction lines as [|line lines IH]; intros st Hst; cbn [fold_left map].
  - by rewrite app_nil_r.
  - destruct (loop_body_invariant st line Hst) as [Hinv Hflat].
    destruct (IH _ Hinv) as [Hinv' Hflat'].
    split; [done|]. by rewrite Hflat', Hflat, <- app_assoc.
Qed.

Lemma render_lines_invariant lines :
  loop_invariant (fold_left loop_body lines ([], false))
  /\ flatten (render_lines lines) = map renderLine lines.
Proof. by apply (fold_loop_invariant lines ([], false)). Qed.

(** X1.  The renderer loses, adds and reorders nothing: with every list
    replaced by its items, the elements are the renderings of the lines
    of the text, one for one and in order. *)
Theorem MarkdownRenderer_flattens_to_lines (content : list N) :
  flatten (MarkdownRenderer content) = map renderLine (split LF content).
Proof. apply render_lines_invariant. Qed.


(** X8.  In the elements of any text every list holds at least one
    item and nothing but items, and no item stands outside a list. *)
Theorem MarkdownRenderer_lists_hold_items (content : list N) :
  Forall well_formed (MarkdownRenderer content).
Proof.
  by destruct (render_lines_invariant (split LF content))
    as [(Hwf & _) _].
Qed.

End ShapeFacts.

(* ===================================================================== *)
(** * More on the request formatter *)
(* ===================================================================== *)

Module GeminiMore.
Import JS Gemini TrimFacts.

(** X9.  A name that [identifyPlant] returns is the trimmed answer of
    the model to one request: it neither starts nor ends with white
    space, and it is empty exactly when the answer was blank. *)
Theorem identifyPlant_name_is_trimmed ai key parts name :
  identifyPlant ai key parts = Fulfilled name ->
  (forall c, head name = Some c -> isTrimmed c = false)
  /\ (forall c, last name = Some c -> isTrimmed c = false)
  /\ exists request text,
       ai key request = Fulfilled text /\ name = trim text
       /\ (name = [] <-> forallb isTrimmed text = true).
Proof.
  unfold identifyPlant.
  match goal with |- context [ai key ?r] => set (request := r) end.
  destruct (ai key request) as [text|] eqn:Hai; simpl; [|done].
  intros [= <-]. split; [apply trim_head|]. split; [apply trim_last|].
  exists request, text. split; [done|]. split; [done|]. apply trim_nil_iff.
Qed.

Lemma identifyPlant_name_is_trimmed_witness :
  identifyPlant (fun _ _ => Fulfilled (js "  Hoa hồng ")) None []
  = Fulfilled (js "Hoa hồng")
  /\ head (js "Hoa hồng") = Some 72%N /\ isTrimmed 72 = false.
Proof.
  assert (H : identifyPlant (fun _ _ => Fulfilled (js "  Hoa hồng ")) None []
              = Fulfilled (js "Hoa hồng")) by reflexivity.
  destruct (identifyPlant_name_is_trimmed _ _ _ _ H) as (Hhead & _).
  split; [exact H|]. split; [reflexivity|]. by apply Hhead.
Defined.

End GeminiMore.

(* ===================================================================== *)
(** * Properties of the service worker *)
(* ===================================================================== *)

Module ServiceWorkerFacts.
Import JS Gemini ServiceWorker.

Lemma fetch_all_Fulfilled net urls : forall responses,
  fetch_all net urls = Fulfilled responses ->
  Forall2 (fun u ur => ur.1 = u /\ net (GET u) = Fulfilled ur.2
                       /\ ok ur.2 = true) urls responses.
Proof.
  unfold fetch_all.
  induction urls as [|u urls IH]; intros responses; cbn [map Promise_all].
  - intros [= <-]. constructor.
  - destruct (net (GET u)) as [r|] eqn:Hu; cbn [await]; [|done].
    destruct (ok r) eqn:Hok; cbn [await]; [|done].
    destruct (Promise_all _) as [rest|]; cbn [await]; [|done].
    intros [= <-]. constructor; [done|]. by apply IH.
Qed.

Lemma fetch_all_Rejected net urls u :
  u ∈ urls ->
  net (GET u) = Rejected
  \/ (exists r, net (GET u) = Fulfilled r /\ ok r = false) ->
  fetch_all net urls = Rejected.
Proof.
  unfold fetch_all. intros Hin Hbad.
  induction Hin as [u urls|u v urls Hin IH]; cbn [map Promise_all].
  - destruct Hbad as [->|(r & -> & Hok)]; cbn [await]; [done|].
    by rewrite Hok.
  - rewrite (IH Hbad). destruct (net (GET v)) as [r|]; cbn [await]; [|done].
    by destruct (ok r).
Qed.

Lemma put_all_other responses : forall cache u,
  u ∉ map fst responses -> put_all responses cache !! u = cache !! u.
Proof.
  unfold put_all.
  induction responses as [|[v r] rest IH]; intros cache u Hu; [done|].
  cbn [foldl]. apply not_elem_of_cons in Hu as [Hne Hu].
  rewrite IH by done. simpl. by rewrite lookup_insert_ne.
Qed.

Lemma put_all_lookup responses : forall cache u,
  u ∈ map fst responses ->
  exists r, (u, r) ∈ responses /\ put_all responses cache !! u = Some r.
Proof.
  induction responses as [|[v r] rest IH]; intros cache u Hu.
  - by apply elem_of_nil in Hu.
  - destruct (decide (u ∈ map fst rest)) as [Hin|Hout].
    + destruct (IH (<[v := r]> cache) u Hin) as (r' & Hr' & Hlook).
      exists r'. split; [by right|done].
    + apply elem_of_cons in Hu as [->|?]; [|done]. exists r.
      split; [by left|].
      change (put_all ((v, r) :: rest) cache)
        with (put_all rest (<[v := r]> cache)).
      rewrite put_all_other by done. apply lookup_insert_eq.
Qed.

Lemma caches_match_hit caches name cache u :
  (name, cache) ∈ caches -> is_Some (cache !! u) ->
  is_Some (caches_match caches (GET u)).
Proof.
  intros Hin Hu.
  induction caches as [|[n c] rest IH]; [by apply elem_of_nil in Hin|].
  cbn [caches_match]. rewrite bool_decide_eq_true_2 by done.
  cbn [url GET]. destruct (c !! u) as [r|] eqn:Hc; [done|].
  apply elem_of_cons in Hin as [[= -> ->]|Hin]; [|by apply IH].
  rewrite Hc in Hu. by destruct Hu.
Qed.

Lemma caches_match_miss caches request :
  method request <> js "GET"
  \/ Forall (fun c => c.2 !! url request = None) caches ->
  caches_match caches request = None.
Proof.
  intros [Hm|Hall].
  - destruct caches as [|[n c] rest]; [done|]. cbn [caches_match].
    by rewrite bool_decide_eq_false_2.
  - induction Hall as [|[n c] rest Hc _ IH]; [done|]. cbn [caches_match].
    simpl in Hc. rewrite Hc. by case_bool_decide.
Qed.

Lemma opened_has_cache caches :
  exists cache, (CACHE_NAME, cache) ∈ caches_open CACHE_NAME caches.
Proof.
  unfold caches_open, cache_names. case_bool_decide as Hin.
  - apply list_elem_of_fmap in Hin as ([n c] & Hn & Hin). simpl in Hn.
    subst. by exists c.
  - exists ∅. apply elem_of_app. right. by left.
Qed.

Lemma update_cache_elem name f caches cache :
  (name, cache) ∈ caches -> (name, f cache) ∈ update_cache name f caches.
Proof.
  intros Hin. unfold update_cache.
  apply list_elem_of_fmap. exists (name, cache). split; [|done].
  simpl. by rewrite decide_True.
Qed.

Lemma update_opened_empty f :
  update_cache CACHE_NAME f (caches_open CACHE_NAME [])
  = [(CACHE_NAME, f ∅)].
Proof.
  unfold caches_open, cache_names, update_cache. cbn [map].
  rewrite bool_decide_eq_false_2 by apply not_elem_of_nil.
  cbn [app map fst snd]. by rewrite decide_True.
Qed.

Lemma caches_match_single name cache u :
  caches_match [(name, cache)] (GET u) = cache !! u.
Proof.
  cbn [caches_match]. rewrite bool_decide_eq_true_2 by done.
  cbn [url GET]. by destruct (cache !! u).
Qed.

(** X10.  Once the install has succeeded, a GET of any URL of
    [urlsToCache] is answered from the cache, whatever the network does
    by then -- also when it is down; and when the cache storage was
    empty before the install, the answer is the one the network gave at
    install time, however the resource has changed since. *)
Theorem installed_urls_served_offline net caches caches' u :
  oninstall net caches = (caches', Fulfilled tt) ->
  u ∈ urlsToCache ->
  exists r,
    caches_match caches' (GET u) = Some r
    /\ (forall net', onfetch caches' net' (GET u) = Fulfilled r)
    /\ (caches = [] -> net (GET u) = Fulfilled r /\ ok r = true).
Proof.
  unfold oninstall. intros Hinstall Hu.
  destruct (fetch_all net urlsToCache) as [responses|] eqn:Hfetch;
    [|done].
  injection Hinstall as <-.
  pose proof (fetch_all_Fulfilled _ _ _ Hfetch) as Hall.
  assert (Hfst : map fst responses = urlsToCache).
  { clear -Hall. induction Hall as [|u [v r] us rs (Hv & _) _ IH]; [done|].
    simpl in *. by rewrite Hv, IH. }
  assert (Hnet : forall r, (u, r) ∈ responses ->
                   net (GET u) = Fulfilled r /\ ok r = true).
  { intros r Hr. apply list_elem_of_lookup in Hr as [i Hi].
    destruct (Forall2_lookup_r _ _ _ _ _ Hall Hi) as (v & _ & Hv & Hf & Hok).
    simpl in *. by subst. }
  destruct (opened_has_cache caches) as [cache Hcache].
  destruct (put_all_lookup responses cache u) as (r0 & Hr0 & Hlook).
  { by rewrite Hfst. }
  pose proof (update_cache_elem _ (put_all responses) _ _ Hcache) as Hin.
  destruct (caches_match_hit _ _ _ u Hin) as [r Hr]; [by eexists|].
  exists r. split; [done|]. split.
  - intros net'. unfold onfetch. by rewrite Hr.
  - intros ->. apply Hnet.
    rewrite update_opened_empty, caches_match_single in Hr.
    destruct (put_all_lookup responses ∅ u) as (r1 & Hr1 & Hlook1).
    { by rewrite Hfst. }
    rewrite Hlook1 in Hr. by injection Hr as <-.
Qed.

Lemma installed_urls_served_offline_witness :
  oninstall Sample2.online []
  = (update_cache CACHE_NAME
       (put_all (map (fun u => (u, {| status := 200;
                                      body := js "<!doctype html>" |}))
                   urlsToCache))
       (caches_open CACHE_NAME []),
     Fulfilled tt)
  /\ js "/index.html" ∈ urlsToCache
  /\ onfetch (oninstall Sample2.online []).1 Sample2.offline
       (GET (js "/index.html"))
     = Fulfilled {| status := 200; body := js "<!doctype html>" |}.
Proof.
  assert (Hfetch : fetch_all Sample2.online urlsToCache
                   = Fulfilled
                       (map (fun u => (u, {| status := 200;
                                             body := js "<!doctype html>" |}))
                          urlsToCache)) by by vm_compute.
  assert (Hinstall : oninstall Sample2.online []
                     = (update_cache CACHE_NAME
                          (put_all (map (fun u =>
                                           (u, {| status := 200;
                                                  body := js "<!doctype html>" |}))
                                      urlsToCache))
                          (caches_open CACHE_NAME []),
                        Fulfilled tt)).
  { unfold oninstall. by rewrite Hfetch. }
  assert (Hu : js "/index.html" ∈ urlsToCache).
  { apply list_elem_of_In. vm_compute. tauto. }
  destruct (installed_urls_served_offline _ _ _ _ Hinstall Hu)
    as (r & _ & Hserved & Hsame).
  destruct (Hsame eq_refl) as [Hr _]. injection Hr as <-.
  split; [exact Hinstall|]. split; [exact Hu|].
  rewrite Hinstall. exact (Hserved Sample2.offline).
Defined.

(** X11.  When the fetch of any one URL of [urlsToCache] fails or is
    answered with a status outside 200-299, the install is rejected and
    nothing is stored: the cache storage is as [caches.open] left it. *)
Theorem failed_install_stores_nothing net caches u :
  u ∈ urlsToCache ->
  net (GET u) = Rejected
  \/ (exists r, net (GET u) = Fulfilled r /\ ok r = false) ->
  oninstall net caches = (caches_open CACHE_NAME caches, Rejected).
Proof.
  intros Hu Hbad. unfold oninstall.
  by rewrite (fetch_all_Rejected net urlsToCache u Hu Hbad).
Qed.

Lemma failed_install_stores_nothing_witness :
  js "https://cdn.tailwindcss.com" ∈ urlsToCache
  /\ oninstall Sample2.no_fonts [] = ([(CACHE_NAME, ∅)], Rejected).
Proof.
  assert (Hu : js "https://cdn.tailwindcss.com" ∈ urlsToCache).
  { apply list_elem_of_In. vm_compute. tauto. }
  split; [exact Hu|].
  refine (failed_install_stores_nothing Sample2.no_fonts [] _ Hu _).
  right. eexists. split; [by vm_compute|reflexivity].
Defined.

(** X12.  With a cache storage that was empty before the install, a
    request that is not a GET, or whose URL is not in [urlsToCache], is
    always passed to the network, with the network's answer or failure as
    the result: the fetch listener stores nothing, so nothing beyond the
    list is ever served from the cache. *)
Theorem unlisted_requests_go_to_network net caches' settled net' request :
  oninstall net [] = (caches', settled) ->
  method request <> js "GET" \/ url request ∉ urlsToCache ->
  onfetch caches' net' request = net' request.
Proof.
  unfold oninstall. intros Hinstall Hreq.
  assert (Hmiss : caches_match caches' request = None);
    [|unfold onfetch; by rewrite Hmiss].
  destruct (fetch_all net urlsToCache) as [responses|] eqn:Hfetch;
    injection Hinstall as <- <-.
  - rewrite ?update_opened_empty. apply caches_match_miss.
    destruct Hreq as [Hm|Hu]; [by left|right].
    apply Forall_singleton. cbn [snd].
    rewrite put_all_other; [apply lookup_empty|].
    pose proof (fetch_all_Fulfilled _ _ _ Hfetch) as Hall.
    assert (Hfst : map fst responses = urlsToCache).
    { clear -Hall.
      induction Hall as [|u [v r] us rs (Hv & _) _ IH]; [done|].
      simpl in *. by rewrite Hv, IH. }
    by rewrite Hfst.
  - apply caches_match_miss. destruct Hreq as [Hm|Hu]; [by left|right].
    unfold caches_open, cache_names. cbn [map].
    rewrite bool_decide_eq_false_2 by apply not_elem_of_nil.
    apply Forall_singleton. apply lookup_empty.
Qed.

Lemma unlisted_requests_go_to_network_witness :
  onfetch (oninstall Sample2.online []).1 Sample2.offline
    Sample2.model_request
  = Rejected.
Proof.
  refine (unlisted_requests_go_to_network Sample2.online
            (oninstall Sample2.online []).1 (oninstall Sample2.online []).2
            Sample2.offline Sample2.model_request _ _).
  - by destruct (oninstall Sample2.online []).
  - left. by vm_compute.
Defined.

End ServiceWorkerFacts.

(* ===================================================================== *)
(** * More on the session key store and the workflow *)
(* ===================================================================== *)

Module AppMore.
Import JS Gemini App Consistency Inputs AppFacts.

(** ** What the page allows *)

(** X13.  While a call is in flight nothing can happen on the page but
    the end of a file read and the settling of that call: no control is
    on screen, so no second call is started.  While an error is shown,
    nothing but its button and the end of a file read. *)
Theorem busy_and_error_pages_are_inert w e w' :
  reachable w -> step w e = Some w' ->
  (is_Some (pending w) ->
   (exists k result, e = ReaderLoadEnd k result) \/ (exists env, e = Settle env))
  /\ (error (app w) <> None ->
      (exists k result, e = ReaderLoadEnd k result) \/ e = Retry).
Proof.
  intros Hr Hs. pose proof (reachable_consistent w Hr) as Hc. split.
  - intros [c Hp].
    destruct (busy_loading w Hc c Hp) as ((m & Hl & Hm) & _).
    assert (Hmounted : mounted w = true).
    { destruct (mounted w) eqn:Hmo; [done|].
      destruct (unmounted_initial w Hc Hmo) as [_ Hnone]. congruence. }
    assert (Hload : truthy_opt (loadingMessage (app w)) = true)
      by by rewrite Hl.
    pose proof (loading_events w e w' Hmounted Hload Hs) as Hkind.
    destruct e; try done; [left|right]; by eauto.
  - intros Herr. destruct (error (app w)) as [m|] eqn:He; [|done].
    destruct (error_message w Hc m He) as [Hm _].
    assert (Hp : pending w = None).
    { destruct (pending w) as [c|] eqn:Hp; [|done].
      destruct (busy_loading w Hc c Hp) as (_ & Hnone & _). congruence. }
    pose proof (idle_not_loading w Hc Hp) as Hl.
    assert (Hv : renderContent (app w) = ErrorView m).
    { unfold renderContent. rewrite Hl, He. by destruct m. }
    apply step_inv in Hs.
    destruct e; try (destruct Hs as (_ & Hv' & _); congruence).
    + destruct Hs as [Hmo _].
      destruct (unmounted_initial w Hc Hmo) as [Happ _].
      rewrite Happ in He. done.
    + by right.
    + left. by eauto.
    + destruct Hs as (_ & Hs). unfold settle in Hs. by rewrite Hp in Hs.
Qed.

Lemma busy_and_error_pages_are_inert_witness :
  reachable Sample.analyzing_page
  /\ step Sample.analyzing_page (Settle Sample.failing)
     = Some Sample.failed_page
  /\ ((exists k result, Settle Sample.failing = ReaderLoadEnd k result)
      \/ (exists env, Settle Sample.failing = Settle env))
  /\ step Sample.analyzing_page ConfirmNext = None.
Proof.
  assert (Hr : reachable Sample.analyzing_page).
  { exists ∅, (Sample.to_confirm ++ [ConfirmNext]). by vm_compute. }
  assert (Hs : step Sample.analyzing_page (Settle Sample.failing)
               = Some Sample.failed_page) by by vm_compute.
  split; [exact Hr|]. split; [exact Hs|]. split; [|by vm_compute].
  apply (proj1 (busy_and_error_pages_are_inert _ _ _ Hr Hs)).
  by eexists.
Defined.

(** ** The key once it is held *)

Lemma held_key_step w e w' :
  reachable w -> truthy_opt (apiKey (app w)) = true ->
  step w e = Some w' ->
  apiKey (app w') = apiKey (app w)
  /\ sessionStorage w' = sessionStorage w.
Proof.
  intros Hr Hkey Hs. pose proof (reachable_consistent w Hr) as Hc.
  apply step_inv in Hs. destruct e.
  - destruct Hs as [Hmo _].
    destruct (unmounted_initial w Hc Hmo) as [Happ _].
    rewrite Happ in Hkey. done.
  - destruct Hs as (Hmo & Hv & _).
    destruct (consistent_step_view w API_KEY Hc Hv) as (_ & _ & _ & Hstep).
    apply (key_step w Hc Hmo) in Hstep. congruence.
  - destruct Hs as (_ & _ & _ & ->). unfold handleImageChange.
    by repeat case_match.
  - destruct Hs as (_ & _ & ->). unfold handleIdentification.
    by repeat case_match.
  - by destruct Hs as (_ & _ & ->).
  - destruct Hs as (_ & _ & ->). unfold handleAnalysis.
    by repeat case_match.
  - by destruct Hs as (_ & _ & ->).
  - by destruct Hs as (_ & _ & ->).
  - destruct Hs as (_ & _ & ->). unfold handleGoalAdvice.
    by repeat case_match.
  - by destruct Hs as (_ & _ & ->).
  - by destruct Hs as (_ & _ & ->).
  - destruct Hs as (_ & Hs). unfold onloadend in Hs.
    destruct (readers w !! k); by simplify_eq.
  - destruct Hs as (_ & Hs). unfold settle in Hs.
    destruct (pending w) as [c|]; simplify_eq. unfold settled.
    simpl. by repeat case_match.
Qed.

Lemma held_key_step_run events : forall w w',
  reachable w -> truthy_opt (apiKey (app w)) = true ->
  run w events = Some w' ->
  apiKey (app w') = apiKey (app w)
  /\ sessionStorage w' = sessionStorage w.
Proof.
  induction events as [|e rest IH]; intros w w' Hr Hkey Hrun;
    simpl in Hrun.
  - by simplify_eq.
  - destruct (step w e) as [w1|] eqn:Hs; [|done].
    destruct (held_key_step w e w1 Hr Hkey Hs) as [Hk Hst].
    destruct (IH w1 w') as [Hk' Hst']; try done.
    + by eapply reachable_step.
    + by rewrite Hk.
    + split; congruence.
Qed.

(** X14.  Once a key is held, nothing that happens on the page changes
    it or the session storage: the 30 minutes are checked when the page
    is opened and never again while it stays open. *)
Theorem held_key_never_changes w events w' :
  reachable w -> truthy_opt (apiKey (app w)) = true ->
  run w events = Some w' ->
  apiKey (app w') = apiKey (app w)
  /\ sessionStorage w' = sessionStorage w.
Proof. apply held_key_step_run. Qed.

Lemma held_key_never_changes_witness :
  reachable Sample.upload_page
  /\ run Sample.upload_page
       [ImageChange 0 (Some Sample.photo); UploadNext;
        Settle (Sample.answering (js " Hoa hồng "))]
     = Some Sample.confirm_page
  /\ apiKey (app Sample.confirm_page) = Some (js "X")
  /\ sessionStorage Sample.confirm_page = sessionStorage Sample.upload_page.
Proof.
  assert (Hr : reachable Sample.upload_page).
  { exists ∅, Sample.to_upload. by vm_compute. }
  assert (Hrun : run Sample.upload_page
                   [ImageChange 0 (Some Sample.photo); UploadNext;
                    Settle (Sample.answering (js " Hoa hồng "))]
                 = Some Sample.confirm_page) by by vm_compute.
  destruct (held_key_never_changes _ _ _ Hr eq_refl Hrun) as [Hk Hst].
  split; [exact Hr|]. split; [exact Hrun|]. split; [|exact Hst].
  by rewrite Hk.
Defined.

(** ** What a call is started with *)






(** ** The session storage *)

(** X16.  The program touches one entry of the session storage only:
    every other entry is left as it is by every event; and the entry of
    the key itself is changed by nothing but the first effects and the
    key form. *)
Theorem only_the_key_entry_is_touched w e w' :
  step w e = Some w' ->
  (forall name, name <> STORAGE_KEY ->
     sessionStorage w' !! name = sessionStorage w !! name)
  /\ ((forall now, e <> Mount now) -> (forall key now, e <> SubmitKey key now) ->
      sessionStorage w' = sessionStorage w).
Proof.
  intros Hs. apply step_inv in Hs. destruct e.
  - destruct Hs as [_ ->]. split; [|by intros H; destruct (H now)].
    intros name Hne. unfold mount, useApiKey_effect, rerender, App_effect.
    repeat (case_match; simpl); try done; by rewrite lookup_delete_ne.
  - destruct Hs as (_ & _ & ->).
    split; [|by intros _ H; destruct (H key now)].
    intros name Hne. unfold handleSubmit, saveApiKey, rerender, App_effect.
    repeat (case_match; simpl); try done; by rewrite lookup_insert_ne.
  - destruct Hs as (_ & _ & _ & ->). unfold handleImageChange.
    by repeat case_match.
  - destruct Hs as (_ & _ & ->). unfold handleIdentification.
    by repeat case_match.
  - by destruct Hs as (_ & _ & ->).
  - destruct Hs as (_ & _ & ->). unfold handleAnalysis.
    by repeat case_match.
  - by destruct Hs as (_ & _ & ->).
  - by destruct Hs as (_ & _ & ->).
  - destruct Hs as (_ & _ & ->). unfold handleGoalAdvice.
    by repeat case_match.
  - by destruct Hs as (_ & _ & ->).
  - by destruct Hs as (_ & _ & ->).
  - destruct Hs as (_ & Hs). unfold onloadend in Hs.
    destruct (readers w !! k); by simplify_eq.
  - destruct Hs as (_ & Hs). unfold settle in Hs.
    destruct (pending w) as [c|]; by simplify_eq.
Qed.

Lemma only_the_key_entry_is_touched_witness :
  step Sample.key_page (SubmitKey (js " X ") 0) = Some Sample.upload_page
  /\ sessionStorage Sample.upload_page !! js "theme"
     = sessionStorage Sample.key_page !! js "theme".
Proof.
  assert (Hs : step Sample.key_page (SubmitKey (js " X ") 0)
               = Some Sample.upload_page) by by vm_compute.
  split; [exact Hs|].
  apply (proj1 (only_the_key_entry_is_touched _ _ _ Hs)). by vm_compute.
Defined.


(** X18.  A key saved through the key form comes back when the page is
    opened again in the same tab, at whatever point of the session: the
    trimmed key is held again and the workflow starts at UPLOAD if less
    than 30 minutes have passed since the key was saved; otherwise the
    record is removed and the key form is shown. *)
Theorem saved_key_survives_reload w key saved w1 events w2 now :
  reachable w -> step w (SubmitKey key saved) = Some w1 ->
  trim key <> [] -> run w1 events = Some w2 ->
  exists w3, step (initial (sessionStorage w2)) (Mount now) = Some w3
    /\ ((now - saved < 30 * 60 * 1000)%Z ->
        apiKey (app w3) = Some (trim key)
        /\ currentStep (app w3) = UPLOAD
        /\ sessionStorage w3 = sessionStorage w2)
    /\ ((30 * 60 * 1000 <= now - saved)%Z ->
        apiKey (app w3) = None
        /\ currentStep (app w3) = API_KEY
        /\ sessionStorage w3 !! STORAGE_KEY = None).
Proof.
  intros Hr Hs Hkey Hrun.
  pose proof (reachable_step w _ w1 Hr Hs) as Hr1.
  pose proof (reachable_consistent w Hr) as Hc.
  assert (Hsaved : apiKey (app w1) = Some (trim key)
                   /\ sessionStorage w1 !! STORAGE_KEY
                      = Some (CredentialJSON (trim key) saved)).
  { apply step_inv in Hs as (_ & _ & ->).
    unfold handleSubmit, saveApiKey, rerender.
    destruct (trim key) as [|c k]; [done|]. simpl.
    case_decide; simpl; (split; [done|apply lookup_insert_eq]). }
  destruct Hsaved as [Hheld Hstored].
  assert (Htruthy : truthy_opt (apiKey (app w1)) = true).
  { rewrite Hheld. by destruct (trim key). }
  destruct (held_key_step_run events w1 w2 Hr1 Htruthy Hrun) as [_ Hsame].
  rewrite Hsame. eexists. split; [reflexivity|].
  unfold mount, useApiKey_effect, rerender, App_effect. simpl.
  rewrite Hstored. change SESSION_TIMEOUT_MS with (30 * 60 * 1000)%Z.
  destruct (Z.ltb_spec (now - saved) (30 * 60 * 1000)) as [Hlt|Hge];
    simpl; (split; [intros ?|intros ?]); try lia.
  - destruct (trim key); [done|]. by repeat split.
  - repeat split. apply lookup_delete_eq.
Qed.

Lemma saved_key_survives_reload_witness :
  reachable Sample.key_page
  /\ step Sample.key_page (SubmitKey (js " X ") 0) = Some Sample.upload_page
  /\ run Sample.upload_page
       [ImageChange 0 (Some Sample.photo); UploadNext;
        Settle (Sample.answering (js " Hoa hồng "))]
     = Some Sample.confirm_page
  /\ exists w3,
       step (initial (sessionStorage Sample.confirm_page))
         (Mount (Sample.minutes 29)) = Some w3
       /\ apiKey (app w3) = Some (js "X")
       /\ currentStep (app w3) = UPLOAD.
Proof.
  assert (Hr : reachable Sample.key_page).
  { exists ∅, [Mount 0]. by vm_compute. }
  assert (Hs : step Sample.key_page (SubmitKey (js " X ") 0)
               = Some Sample.upload_page) by by vm_compute.
  assert (Hrun : run Sample.upload_page
                   [ImageChange 0 (Some Sample.photo); UploadNext;
                    Settle (Sample.answering (js " Hoa hồng "))]
                 = Some Sample.confirm_page) by by vm_compute.
  assert (Hkey : trim (js " X ") <> []) by by vm_compute.
  destruct (saved_key_survives_reload _ _ _ _ _ _ (Sample.minutes 29)
              Hr Hs Hkey Hrun) as (w3 & Hm & Hfresh & _).
  split; [exact Hr|]. split; [exact Hs|]. split; [exact Hrun|].
  exists w3. split; [exact Hm|].
  destruct Hfresh as (Hk & Hstep & _); [by vm_compute|]. by split.
Defined.

(** ** Picking images *)

(** X19.  Picking a file for one of the two slots: a file whose type
    does not start with "image/" only sets the error, and the selection
    is ignored; an image takes its slot, the other slot keeps its file,
    the previews are as they were until the read ends, and one more
    reader is reading; closing the dialog without a file changes
    nothing. *)
Theorem picking_a_file w index file w' :
  reachable w -> step w (ImageChange index file) = Some w' ->
  match file with
  | None => w' = w
  | Some f =>
      if startsWith (file_type f) (js "image/") then
        imageFiles (app w') !! index = Some (Some f)
        /\ (forall other, other <> index ->
              imageFiles (app w') !! other = imageFiles (app w) !! other)
        /\ imageDataUrls (app w') = imageDataUrls (app w)
        /\ error (app w') = None
        /\ readers w'
           = readers w ++ [{| reader_index := index;
                              reader_urls := imageDataUrls (app w) |}]
      else
        w' = with_app (setError (Some MSG_NOT_AN_IMAGE)) w
        /\ renderContent (app w') = ErrorView MSG_NOT_AN_IMAGE
  end.
Proof.
  intros Hr Hs. pose proof (reachable_consistent w Hr) as Hc.
  destruct (reachable_two_slots w Hr) as (Hlen & _).
  apply step_inv in Hs as (_ & Hv & Hi & ->).
  destruct (consistent_step_view w UPLOAD Hc Hv) as (_ & Hl & He & _).
  unfold handleImageChange. destruct file as [f|]; [|done].
  destruct (startsWith (file_type f) (js "image/")); simpl.
  - split; [apply list_lookup_insert_eq; lia|].
    split; [|done]. intros other Hne. by apply list_lookup_insert_ne.
  - split; [done|]. unfold renderContent. simpl. by rewrite Hl.
Qed.

Lemma picking_a_file_witness :
  reachable Sample.upload_page
  /\ step Sample.upload_page
       (ImageChange 1 (Some {| file_type := js "application/pdf";
                               file_bytes := [] |}))
     = Some (with_app (setError (Some MSG_NOT_AN_IMAGE)) Sample.upload_page)
  /\ renderContent
       (app (with_app (setError (Some MSG_NOT_AN_IMAGE)) Sample.upload_page))
     = ErrorView MSG_NOT_AN_IMAGE.
Proof.
  assert (Hr : reachable Sample.upload_page).
  { exists ∅, Sample.to_upload. by vm_compute. }
  assert (Hs : step Sample.upload_page
                 (ImageChange 1 (Some {| file_type := js "application/pdf";
                                         file_bytes := [] |}))
               = Some (with_app (setError (Some MSG_NOT_AN_IMAGE))
                         Sample.upload_page)) by by vm_compute.
  pose proof (picking_a_file _ _ _ _ Hr Hs) as [_ Hview].
  split; [exact Hr|]. split; [exact Hs|exact Hview].
Defined.

(** X20.  A reader writes its result into the previews as they were
    when its file was picked.  So when two images are picked one after
    the other before either has been read, and the reads then end in
    that order, the preview of the first one is lost: its slot shows
    what it showed before, although both files are selected. *)
Theorem second_read_drops_first_preview
    w i j fi fj w1 w2 ri rj w3 w4 :
  reachable w -> i <> j ->
  startsWith (file_type fi) (js "image/") = true ->
  startsWith (file_type fj) (js "image/") = true ->
  step w (ImageChange i (Some fi)) = Some w1 ->
  step w1 (ImageChange j (Some fj)) = Some w2 ->
  step w2 (ReaderLoadEnd (length (readers w)) ri) = Some w3 ->
  step w3 (ReaderLoadEnd (length (readers w)) rj) = Some w4 ->
  imageDataUrls (app w3) !! i = Some ri
  /\ imageDataUrls (app w4) = <[j := rj]> (imageDataUrls (app w))
  /\ imageDataUrls (app w4) !! i = imageDataUrls (app w) !! i
  /\ imageFiles (app w4) !! i = Some (Some fi)
  /\ imageFiles (app w4) !! j = Some (Some fj).
Proof.
  intros Hr Hij Hfi Hfj Hs1 Hs2 Hs3 Hs4.
  destruct (reachable_two_slots w Hr) as (Hlen & Hulen & _).
  apply step_inv in Hs1 as (_ & _ & Hi & ->).
  apply step_inv in Hs2 as (_ & _ & Hj & ->).
  apply step_inv in Hs3 as (_ & Hs3).
  unfold handleImageChange in Hs3. rewrite Hfi, Hfj in Hs3. simpl in Hs3.
  unfold onloadend in Hs3. simpl in Hs3.
  rewrite <- app_assoc in Hs3.
  rewrite lookup_app_r in Hs3 by lia. rewrite Nat.sub_diag in Hs3.
  simpl in Hs3. injection Hs3 as <-.
  apply step_inv in Hs4 as (_ & Hs4).
  unfold onloadend in Hs4. simpl in Hs4.
  rewrite delete_middle in Hs4.
  rewrite lookup_app_r in Hs4 by lia. rewrite Nat.sub_diag in Hs4.
  simpl in Hs4. injection Hs4 as <-. simpl.
  split; [apply list_lookup_insert_eq; lia|].
  split; [done|].
  split; [by apply list_lookup_insert_ne|].
  split.
  - rewrite list_lookup_insert_ne by done.
    apply list_lookup_insert_eq. lia.
  - apply list_lookup_insert_eq. rewrite length_insert. lia.
Qed.

Lemma second_read_drops_first_preview_witness :
  reachable Sample.upload_page
  /\ run Sample.upload_page
       [ImageChange 0 (Some Sample.photo); ImageChange 1 (Some Sample.photo);
        ReaderLoadEnd 0 (Some Sample.preview);
        ReaderLoadEnd 0 (Some Sample.preview)]
     = Some Sample2.read_two
  /\ imageDataUrls (app Sample2.read_two) = [None; Some Sample.preview]
  /\ imageFiles (app Sample2.read_two) !! 0 = Some (Some Sample.photo).
Proof.
  assert (Hr : reachable Sample.upload_page).
  { exists ∅, Sample.to_upload. by vm_compute. }
  assert (H1 : step Sample.upload_page (ImageChange 0 (Some Sample.photo))
               = Some Sample2.picked_one) by by vm_compute.
  assert (H2 : step Sample2.picked_one (ImageChange 1 (Some Sample.photo))
               = Some Sample2.picked_two) by by vm_compute.
  assert (H3 : step Sample2.picked_two
                 (ReaderLoadEnd (length (readers Sample.upload_page))
                    (Some Sample.preview))
               = Some Sample2.read_one) by by vm_compute.
  assert (H4 : step Sample2.read_one
                 (ReaderLoadEnd (length (readers Sample.upload_page))
                    (Some Sample.preview))
               = Some Sample2.read_two) by by vm_compute.
  assert (Hij : 0 <> 1) by done.
  assert (Himg : startsWith (file_type Sample.photo) (js "image/") = true)
    by reflexivity.
  destruct (second_read_drops_first_preview
              Sample.upload_page 0 1 Sample.photo Sample.photo _ _ _ _ _ _
              Hr Hij Himg Himg H1 H2 H3 H4)
    as (_ & Hurls & _ & Hfile & _).
  split; [exact Hr|]. split; [by vm_compute|].
  split; [exact Hurls|exact Hfile].
Defined.

(** ** The calls when they succeed *)

Lemma imageParts_cons_Some env f files :
  imageParts env (Some f :: files)
  = (part <- await fileToGenerativePart env f ;;
     rest <- await imageParts env files ;; Fulfilled (part :: rest)).
Proof. reflexivity. Qed.

Lemma imageParts_cons_None env files :
  imageParts env (None :: files) = imageParts env files.
Proof. reflexivity. Qed.

Lemma imageParts_Fulfilled env files :
  (forall f, Some f ∈ files ->
     exists part, fileToGenerativePart env f = Fulfilled part) ->
  exists parts, imageParts env files = Fulfilled parts
                /\ length parts = length (omap id files).
Proof.
  induction files as [|[f|] files IH]; intros Hall.
  - by exists [].
  - destruct IH as (parts & Hparts & Hlen).
    { intros g Hg. apply Hall. by right. }
    destruct (Hall f) as [part Hpart]; [by left|].
    exists (part :: parts). rewrite imageParts_cons_Some, Hpart, Hparts.
    split; [done|]. simpl. by rewrite Hlen.
  - rewrite imageParts_cons_None. apply IH.
    intros g Hg. apply Hall. by right.
Qed.

Lemma imageParts_Rejected env files f :
  Some f ∈ files -> fileToGenerativePart env f = Rejected ->
  imageParts env files = Rejected.
Proof.
  intros Hin Hf.
  induction files as [|[g|] files IH].
  - by apply elem_of_nil in Hin.
  - rewrite imageParts_cons_Some.
    apply elem_of_cons in Hin as [[= <-]|Hin].
    + by rewrite Hf.
    + rewrite (IH Hin). by destruct (fileToGenerativePart env g).
  - rewrite imageParts_cons_None.
    apply elem_of_cons in Hin as [?|Hin]; [done|]. by apply IH.
Qed.

(** Until the call settles the state changes in its previews only. *)
Lemma awaiting_frame events : forall w1 w2,
  mounted w1 = true -> truthy_opt (loadingMessage (app w1)) = true ->
  Forall (fun e => isSettle e = false) events ->
  run w1 events = Some w2 ->
  app w2 = setImageDataUrls (imageDataUrls (app w2)) (app w1)
  /\ pending w2 = pending w1 /\ mounted w2 = true.
Proof.
  induction events as [|e rest IH]; intros w1 w2 Hm Hl Hns Hrun;
    simpl in Hrun.
  - simplify_eq. by destruct (app w2).
  - destruct (step w1 e) as [w|] eqn:Hs; [|done].
    inversion Hns as [|? ? Hne Hrest]; subst.
    pose proof (loading_events w1 e w Hm Hl Hs) as Hkind.
    destruct e; try done. apply step_inv in Hs as (_ & Hs).
    unfold onloadend in Hs. destruct (readers w1 !! k); simplify_eq.
    apply (IH _ w2) in Hrun as (Happ & Hp & Hmo); [|done..].
    split; [|by split]. rewrite Happ. reflexivity.
Qed.

Lemma identification_started w :
  consistent w -> renderContent (app w) = UploadStep ->
  is_Some (pending (handleIdentification w)) ->
  handleIdentification w
  = with_pending (Some (Identify (apiKey (app w)) (imageFiles (app w))))
      (with_app (fun s => setError None
                            (setLoadingMessage (Some MSG_IDENTIFYING) s)) w).
Proof.
  intros Hc Hv [c Hp].
  destruct (consistent_step_view w UPLOAD Hc Hv) as (Hp0 & _).
  unfold handleIdentification in *.
  destruct (existsb isFile (imageFiles (app w))); simpl in *;
    [done|congruence].
Qed.

Lemma analysis_started w :
  consistent w -> renderContent (app w) = ConfirmStep ->
  is_Some (pending (handleAnalysis w)) ->
  handleAnalysis w
  = with_pending
      (Some (Analyze (apiKey (app w)) (imageFiles (app w))
               (plantName (app w))))
      (with_app (fun s => setError None
                            (setLoadingMessage (Some MSG_ANALYZING) s)) w).
Proof.
  intros Hc Hv [c Hp].
  destruct (consistent_step_view w CONFIRM Hc Hv) as (Hp0 & _).
  unfold handleAnalysis in *.
  destruct (truthy (trim (plantName (app w)))); simpl in *;
    [done|congruence].
Qed.

Lemma advice_started w :
  consistent w -> renderContent (app w) = GoalStep ->
  is_Some (pending (handleGoalAdvice w)) ->
  handleGoalAdvice w
  = with_pending
      (Some (Advise (apiKey (app w)) (plantName (app w))
               (healthAnalysis (app w)) (userGoal (app w))))
      (with_app (fun s => setError None
                            (setLoadingMessage (Some MSG_ADVISING) s)) w).
Proof.
  intros Hc Hv [c Hp].
  destruct (consistent_step_view w GOAL Hc Hv) as (Hp0 & _).
  unfold handleGoalAdvice in *.
  destruct (truthy (trim (userGoal (app w)))); simpl in *;
    [done|congruence].
Qed.

(** X21.  When every selected file converts and the model answers, the
    identification puts the trimmed answer in the plant name and moves
    from UPLOAD to CONFIRM, with no error, no loading message and the
    files as they were. *)
Theorem identification_success w w1 events w2 env text w3 :
  reachable w -> step w UploadNext = Some w1 -> is_Some (pending w1) ->
  Forall (fun e => isSettle e = false) events ->
  run w1 events = Some w2 ->
  (forall f, Some f ∈ imageFiles (app w) ->
     exists part, fileToGenerativePart env f = Fulfilled part) ->
  (forall request,
     generateContent env (apiKey (app w)) request = Fulfilled text) ->
  step w2 (Settle env) = Some w3 ->
  plantName (app w3) = trim text
  /\ currentStep (app w3) = CONFIRM
  /\ error (app w3) = None
  /\ loadingMessage (app w3) = None
  /\ pending w3 = None
  /\ imageFiles (app w3) = imageFiles (app w).
Proof.
  intros Hr Hs Hp Hns Hrun Hfiles Hmodel Hsettle.
  pose proof (reachable_consistent w Hr) as Hc.
  apply step_inv in Hs as (Hm & Hv & ->).
  apply step_inv in Hsettle as (_ & Hsettle).
  rewrite (identification_started w Hc Hv Hp) in Hrun.
  apply awaiting_frame in Hrun as (Happ & Hp2 & _);
    [|exact Hm|reflexivity|exact Hns].
  unfold settle in Hsettle. rewrite Hp2 in Hsettle.
  cbn [pending with_pending] in Hsettle. injection Hsettle as <-.
  destruct (imageParts_Fulfilled env _ Hfiles) as (parts & Hparts & _).
  unfold call_result. rewrite Hparts. cbn [await].
  unfold identifyPlant. rewrite Hmodel. cbn [await]. simpl.
  rewrite Happ. by repeat split.
Qed.

Lemma identification_success_witness :
  reachable Sample2.picked_one
  /\ step Sample2.picked_one UploadNext = Some Sample2.identifying_page
  /\ step Sample2.identifying_page
       (Settle (Sample.answering (js " Hoa hồng ")))
     = Some Sample.confirm_page
  /\ plantName (app Sample.confirm_page) = js "Hoa hồng"
  /\ currentStep (app Sample.confirm_page) = CONFIRM.
Proof.
  assert (Hr : reachable Sample2.picked_one).
  { exists ∅, (Sample.to_upload ++ [ImageChange 0 (Some Sample.photo)]).
    by vm_compute. }
  assert (Hs : step Sample2.picked_one UploadNext
               = Some Sample2.identifying_page) by by vm_compute.
  assert (Hsettle : step Sample2.identifying_page
                      (Settle (Sample.answering (js " Hoa hồng ")))
                    = Some Sample.confirm_page) by by vm_compute.
  assert (Hp : is_Some (pending Sample2.identifying_page)) by by eexists.
  assert (Hfiles : forall f, Some f ∈ imageFiles (app Sample2.picked_one) ->
            exists part,
              fileToGenerativePart (Sample.answering (js " Hoa hồng ")) f
              = Fulfilled part) by (intros f _; by eexists).
  assert (Hns : Forall (fun e => isSettle e = false) []) by constructor.
  assert (Hrun : run Sample2.identifying_page []
                 = Some Sample2.identifying_page) by reflexivity.
  assert (Hmodel : forall request,
            generateContent (Sample.answering (js " Hoa hồng "))
              (apiKey (app Sample2.picked_one)) request
            = Fulfilled (js " Hoa hồng ")) by reflexivity.
  destruct (identification_success _ _ _ _ _ _ _
              Hr Hs Hp Hns Hrun Hfiles Hmodel Hsettle)
    as (Hname & Hstep & _).
  split; [exact Hr|]. split; [exact Hs|]. split; [exact Hsettle|].
  split; [exact Hname|exact Hstep].
Defined.

(** X22.  When every selected file converts and the model answers, the
    analysis puts the answer, as it is, in the health analysis and moves
    from CONFIRM to DIAGNOSE; the plant name the user confirmed and the
    files stay. *)
Theorem analysis_success w w1 events w2 env text w3 :
  reachable w -> step w ConfirmNext = Some w1 -> is_Some (pending w1) ->
  Forall (fun e => isSettle e = false) events ->
  run w1 events = Some w2 ->
  (forall f, Some f ∈ imageFiles (app w) ->
     exists part, fileToGenerativePart env f = Fulfilled part) ->
  (forall request,
     generateContent env (apiKey (app w)) request = Fulfilled text) ->
  step w2 (Settle env) = Some w3 ->
  healthAnalysis (app w3) = text
  /\ currentStep (app w3) = DIAGNOSE
  /\ error (app w3) = None
  /\ loadingMessage (app w3) = None
  /\ pending w3 = None
  /\ plantName (app w3) = plantName (app w)
  /\ imageFiles (app w3) = imageFiles (app w).
Proof.
  intros Hr Hs Hp Hns Hrun Hfiles Hmodel Hsettle.
  pose proof (reachable_consistent w Hr) as Hc.
  apply step_inv in Hs as (Hm & Hv & ->).
  apply step_inv in Hsettle as (_ & Hsettle).
  rewrite (analysis_started w Hc Hv Hp) in Hrun.
  apply awaiting_frame in Hrun as (Happ & Hp2 & _);
    [|exact Hm|reflexivity|exact Hns].
  unfold settle in Hsettle. rewrite Hp2 in Hsettle.
  cbn [pending with_pending] in Hsettle. injection Hsettle as <-.
  destruct (imageParts_Fulfilled env _ Hfiles) as (parts & Hparts & _).
  unfold call_result. rewrite Hparts. cbn [await].
  unfold analyzePlantHealth. rewrite Hmodel. cbn [await]. simpl.
  rewrite Happ. by repeat split.
Qed.

Lemma analysis_success_witness :
  reachable Sample.confirm_page
  /\ step Sample.confirm_page ConfirmNext = Some Sample.analyzing_page
  /\ step Sample.analyzing_page (Settle (Sample.answering (js "### OK")))
     = Some (with_app (setCurrentStep DIAGNOSE) Sample.goal_page)
  /\ healthAnalysis (app (with_app (setCurrentStep DIAGNOSE) Sample.goal_page))
     = js "### OK".
Proof.
  assert (Hr : reachable Sample.confirm_page).
  { exists ∅, Sample.to_confirm. by vm_compute. }
  assert (Hs : step Sample.confirm_page ConfirmNext
               = Some Sample.analyzing_page) by by vm_compute.
  assert (Hsettle : step Sample.analyzing_page
                      (Settle (Sample.answering (js "### OK")))
                    = Some (with_app (setCurrentStep DIAGNOSE)
                              Sample.goal_page)) by by vm_compute.
  assert (Hp : is_Some (pending Sample.analyzing_page)) by by eexists.
  assert (Hfiles : forall f, Some f ∈ imageFiles (app Sample.confirm_page) ->
            exists part,
              fileToGenerativePart (Sample.answering (js "### OK")) f
              = Fulfilled part) by (intros f _; by eexists).
  assert (Hns : Forall (fun e => isSettle e = false) []) by constructor.
  assert (Hrun : run Sample.analyzing_page [] = Some Sample.analyzing_page)
    by reflexivity.
  assert (Hmodel : forall request,
            generateContent (Sample.answering (js "### OK"))
              (apiKey (app Sample.confirm_page)) request
            = Fulfilled (js "### OK")) by reflexivity.
  destruct (analysis_success _ _ _ _ _ _ _
              Hr Hs Hp Hns Hrun Hfiles Hmodel Hsettle) as (Hreport & _).
  split; [exact Hr|]. split; [exact Hs|]. split; [exact Hsettle|].
  exact Hreport.
Defined.

(** X23.  When the model answers, the advice puts the answer, as it is,
    in the goal advice and stays on GOAL, where it is shown under the
    goal the user typed; no image is converted or sent for it. *)
Theorem advice_success w w1 events w2 env text w3 :
  reachable w -> step w AnalyzeGoal = Some w1 -> is_Some (pending w1) ->
  Forall (fun e => isSettle e = false) events ->
  run w1 events = Some w2 ->
  (forall request,
     generateContent env (apiKey (app w)) request = Fulfilled text) ->
  step w2 (Settle env) = Some w3 ->
  goalAnalysis (app w3) = text
  /\ currentStep (app w3) = GOAL
  /\ error (app w3) = None
  /\ loadingMessage (app w3) = None
  /\ pending w3 = None
  /\ userGoal (app w3) = userGoal (app w)
  /\ healthAnalysis (app w3) = healthAnalysis (app w).
Proof.
  intros Hr Hs Hp Hns Hrun Hmodel Hsettle.
  pose proof (reachable_consistent w Hr) as Hc.
  apply step_inv in Hs as (Hm & Hv & ->).
  destruct (consistent_step_view w GOAL Hc Hv) as (_ & _ & _ & Hstep).
  apply step_inv in Hsettle as (_ & Hsettle).
  rewrite (advice_started w Hc Hv Hp) in Hrun.
  apply awaiting_frame in Hrun as (Happ & Hp2 & _);
    [|exact Hm|reflexivity|exact Hns].
  unfold settle in Hsettle. rewrite Hp2 in Hsettle.
  cbn [pending with_pending] in Hsettle. injection Hsettle as <-.
  unfold call_result, getGoalOrientedAdvice. rewrite Hmodel.
  cbn [await]. simpl. rewrite Happ. by repeat split.
Qed.

Lemma advice_success_witness :
  reachable Sample2.goal_typed
  /\ step Sample2.goal_typed AnalyzeGoal = Some Sample2.advising_page
  /\ step Sample2.advising_page (Settle Sample2.unreadable)
     = Some (with_app (setGoalAnalysis (js "Hoa hồng")) Sample2.goal_typed)
  /\ currentStep
       (app (with_app (setGoalAnalysis (js "Hoa hồng")) Sample2.goal_typed))
     = GOAL.
Proof.
  assert (Hr : reachable Sample2.goal_typed).
  { exists ∅, (Sample.to_goal ++ [UserGoalChange (js "ra hoa")]).
    by vm_compute. }
  assert (Hs : step Sample2.goal_typed AnalyzeGoal
               = Some Sample2.advising_page) by by vm_compute.
  assert (Hsettle : step Sample2.advising_page (Settle Sample2.unreadable)
                    = Some (with_app (setGoalAnalysis (js "Hoa hồng"))
                              Sample2.goal_typed)) by by vm_compute.
  assert (Hp : is_Some (pending Sample2.advising_page)) by by eexists.
  assert (Hns : Forall (fun e => isSettle e = false) []) by constructor.
  assert (Hrun : run Sample2.advising_page [] = Some Sample2.advising_page)
    by reflexivity.
  assert (Hmodel : forall request,
            generateContent Sample2.unreadable
              (apiKey (app Sample2.goal_typed)) request
            = Fulfilled (js "Hoa hồng")) by reflexivity.
  destruct (advice_success _ _ _ _ _ _ _
              Hr Hs Hp Hns Hrun Hmodel Hsettle) as (_ & Hstep & _).
  split; [exact Hr|]. split; [exact Hs|]. split; [exact Hsettle|].
  exact Hstep.
Defined.

(** X24.  When one of the selected files cannot be converted, the
    identification and the analysis fail with their own message whatever
    the model would answer: the step and the data stay as they were. *)
Theorem unreadable_file_fails_the_call w e w1 events w2 env f w3 :
  reachable w -> e = UploadNext \/ e = ConfirmNext ->
  step w e = Some w1 -> is_Some (pending w1) ->
  Forall (fun e => isSettle e = false) events ->
  run w1 events = Some w2 ->
  Some f ∈ imageFiles (app w) -> fileToGenerativePart env f = Rejected ->
  step w2 (Settle env) = Some w3 ->
  (e = UploadNext -> error (app w3) = Some MSG_IDENTIFY_FAILED)
  /\ (e = ConfirmNext -> error (app w3) = Some MSG_ANALYSIS_FAILED)
  /\ currentStep (app w3) = currentStep (app w)
  /\ plantName (app w3) = plantName (app w)
  /\ healthAnalysis (app w3) = healthAnalysis (app w)
  /\ loadingMessage (app w3) = None.
Proof.
  intros Hr He Hs Hp Hns Hrun Hin Hf Hsettle.
  pose proof (reachable_consistent w Hr) as Hc.
  pose proof (imageParts_Rejected env _ f Hin Hf) as Hparts.
  apply step_inv in Hsettle as (_ & Hsettle).
  destruct He as [-> | ->]; apply step_inv in Hs as (Hm & Hv & ->).
  - rewrite (identification_started w Hc Hv Hp) in Hrun.
    apply awaiting_frame in Hrun as (Happ & Hp2 & _);
      [|exact Hm|reflexivity|exact Hns].
    unfold settle in Hsettle. rewrite Hp2 in Hsettle.
    cbn [pending with_pending] in Hsettle. injection Hsettle as <-.
    unfold call_result. rewrite Hparts. cbn [await]. simpl.
    rewrite Happ. split; [done|]. split; [discriminate|]. by repeat split.
  - rewrite (analysis_started w Hc Hv Hp) in Hrun.
    apply awaiting_frame in Hrun as (Happ & Hp2 & _);
      [|exact Hm|reflexivity|exact Hns].
    unfold settle in Hsettle. rewrite Hp2 in Hsettle.
    cbn [pending with_pending] in Hsettle. injection Hsettle as <-.
    unfold call_result. rewrite Hparts. cbn [await]. simpl.
    rewrite Happ. split; [discriminate|]. split; [done|]. by repeat split.
Qed.

Lemma unreadable_file_fails_the_call_witness :
  reachable Sample2.picked_one
  /\ step Sample2.picked_one UploadNext = Some Sample2.identifying_page
  /\ step Sample2.identifying_page (Settle Sample2.unreadable)
     = Some (with_app (setError (Some MSG_IDENTIFY_FAILED))
               Sample2.picked_one)
  /\ error (app (with_app (setError (Some MSG_IDENTIFY_FAILED))
                   Sample2.picked_one))
     = Some MSG_IDENTIFY_FAILED.
Proof.
  assert (Hr : reachable Sample2.picked_one).
  { exists ∅, (Sample.to_upload ++ [ImageChange 0 (Some Sample.photo)]).
    by vm_compute. }
  assert (Hs : step Sample2.picked_one UploadNext
               = Some Sample2.identifying_page) by by vm_compute.
  assert (Hsettle : step Sample2.identifying_page (Settle Sample2.unreadable)
                    = Some (with_app (setError (Some MSG_IDENTIFY_FAILED))
                              Sample2.picked_one)) by by vm_compute.
  assert (Hp : is_Some (pending Sample2.identifying_page)) by by eexists.
  assert (Hns : Forall (fun e => isSettle e = false) []) by constructor.
  assert (Hrun : run Sample2.identifying_page []
                 = Some Sample2.identifying_page) by reflexivity.
  assert (Hin : Some Sample.photo ∈ imageFiles (app Sample2.picked_one))
    by by left.
  assert (Hf : fileToGenerativePart Sample2.unreadable Sample.photo
               = Rejected) by reflexivity.
  destruct (unreadable_file_fails_the_call _ UploadNext _ _ _ _ _ _
              Hr (or_introl eq_refl) Hs Hp Hns Hrun Hin Hf Hsettle)
    as (Herr & _).
  split; [exact Hr|]. split; [exact Hs|]. split; [exact Hsettle|].
  exact (Herr eq_refl).
Defined.

(** X25.  "Get advice" on GOAL with a goal that is empty once trimmed
    only sets the error to its message: the step stays GOAL, no call is
    started, and the goal text, the health analysis and an earlier advice
    stay as they were. *)
Theorem advice_without_goal_sets_error w w' :
  reachable w -> trim (userGoal (app w)) = [] ->
  step w AnalyzeGoal = Some w' ->
  w' = with_app (setError (Some MSG_EMPTY_GOAL)) w
  /\ currentStep (app w') = GOAL
  /\ pending w' = None
  /\ error (app w') = Some MSG_EMPTY_GOAL
  /\ goalAnalysis (app w') = goalAnalysis (app w).
Proof.
  intros Hr Hempty Hs. pose proof (reachable_consistent w Hr) as Hc.
  apply step_inv in Hs as (_ & Hv & ->).
  destruct (consistent_step_view w GOAL Hc Hv) as (Hp & _ & _ & Hstep).
  unfold handleGoalAdvice. rewrite Hempty. simpl. by rewrite Hstep.
Qed.

Lemma advice_without_goal_sets_error_witness :
  reachable Sample.goal_page
  /\ trim (userGoal (app Sample.goal_page)) = []
  /\ step Sample.goal_page AnalyzeGoal
     = Some (with_app (setError (Some MSG_EMPTY_GOAL)) Sample.goal_page)
  /\ currentStep
       (app (with_app (setError (Some MSG_EMPTY_GOAL)) Sample.goal_page))
     = GOAL.
Proof.
  assert (Hr : reachable Sample.goal_page).
  { exists ∅, Sample.to_goal. by vm_compute. }
  assert (Hempty : trim (userGoal (app Sample.goal_page)) = [])
    by reflexivity.
  assert (Hs : step Sample.goal_page AnalyzeGoal
               = Some (with_app (setError (Some MSG_EMPTY_GOAL))
                         Sample.goal_page)) by by vm_compute.
  destruct (advice_without_goal_sets_error _ _ Hr Hempty Hs)
    as (_ & Hstep & _).
  split; [exact Hr|]. split; [exact Hempty|]. split; [exact Hs|].
  exact Hstep.
Defined.

(** ** The frame *)

(** X26.  While no key is held the page is the key form alone, without
    header or stepper.  Once a key is held the stepper is drawn beside
    the content, also beside the loading and the error view: of its four
    entries those before the current step carry a check mark, the one of
    the current step is marked current, and the later ones are upcoming. *)
Theorem stepper_marks_the_step w :
  reachable w -> mounted w = true ->
  (truthy_opt (apiKey (app w)) = false ->
   Layout.App_render (app w) = Layout.KeyScreen (renderContent (app w)))
  /\ (truthy_opt (apiKey (app w)) = true ->
      exists marks,
        Layout.App_render (app w)
        = Layout.WorkflowScreen marks (renderContent (app w))
        /\ length marks = 4
        /\ forall i mark, marks !! i = Some mark ->
             match mark with
             | Layout.Completed _ => i + 1 < step_rank (currentStep (app w))
             | Layout.Current _ _ => i + 1 = step_rank (currentStep (app w))
             | Layout.Upcoming _ _ => step_rank (currentStep (app w)) < i + 1
             end).
Proof.
  intros Hr Hm. pose proof (reachable_consistent w Hr) as Hc.
  pose proof (key_step w Hc Hm) as Hk. split.
  - intros Hno. apply Hk in Hno. unfold Layout.App_render.
    by rewrite Hno.
  - intros Hkey. unfold Layout.App_render.
    destruct (currentStep (app w)) eqn:Hst.
    + destruct Hk as [_ Hk]. rewrite Hk in Hkey; done.
    + eexists. split; [reflexivity|]. split; [reflexivity|].
      intros i mark Hi.
      destruct i as [|[|[|[|i]]]]; vm_compute in Hi; simplify_eq;
        simpl; lia.
    + eexists. split; [reflexivity|]. split; [reflexivity|].
      intros i mark Hi.
      destruct i as [|[|[|[|i]]]]; vm_compute in Hi; simplify_eq;
        simpl; lia.
    + eexists. split; [reflexivity|]. split; [reflexivity|].
      intros i mark Hi.
      destruct i as [|[|[|[|i]]]]; vm_compute in Hi; simplify_eq;
        simpl; lia.
    + eexists. split; [reflexivity|]. split; [reflexivity|].
      intros i mark Hi.
      destruct i as [|[|[|[|i]]]]; vm_compute in Hi; simplify_eq;
        simpl; lia.
Qed.

Lemma stepper_marks_the_step_witness :
  reachable Sample.failed_page
  /\ Layout.App_render (app Sample.failed_page)
     = Layout.WorkflowScreen
         [Layout.Completed (js "Tải ảnh");
          Layout.Current (js "02") (js "Xác nhận");
          Layout.Upcoming (js "03") (js "Chẩn đoán");
          Layout.Upcoming (js "04") (js "Tư vấn")]
         (ErrorView MSG_ANALYSIS_FAILED)
  /\ 1 + 1 = step_rank (currentStep (app Sample.failed_page)).
Proof.
  assert (Hr : reachable Sample.failed_page).
  { exists ∅, Sample.analysis_fails. by vm_compute. }
  assert (Hrender : Layout.App_render (app Sample.failed_page)
     = Layout.WorkflowScreen
         [Layout.Completed (js "Tải ảnh");
          Layout.Current (js "02") (js "Xác nhận");
          Layout.Upcoming (js "03") (js "Chẩn đoán");
          Layout.Upcoming (js "04") (js "Tư vấn")]
         (ErrorView MSG_ANALYSIS_FAILED)) by by vm_compute.
  destruct (proj2 (stepper_marks_the_step _ Hr eq_refl) eq_refl)
    as (marks & Hmarks & _ & Hall).
  rewrite Hrender in Hmarks. injection Hmarks as <-.
  split; [exact Hr|]. split; [exact Hrender|].
  exact (Hall 1 _ eq_refl).
Defined.

End AppMore.
